(** * Lightning HPO: the Sweeper flow, its dashboard and the Algorithm interface

    A shallow embedding of [lightning_hpo/app/sweeper.py] and
    [lightning_hpo/algorithm/base.py].

    Conventions of the embedding:
    - Python [int] is [Z]; Python [str] is [string]; a Python [float] is only
      carried around by the code modelled here (never computed on) and is
      written as a rational [Q].
    - A Python [dict] is insertion ordered; it is an association list with
      unique keys ([Py.dict]).  Iteration follows the list.
    - Python objects have identity.  A [Sweep] held by the Sweeper is a cell
      [SweepObj] made of the address the constructor call allocated and the
      current attribute values.  The Sweeper counts the constructor calls it
      has performed in [allocated].
    - Effects on the outside world (starting works, ticking a sweep, HTTP
      posts) are recorded as a list of [Event]s in program order.
    - A raised exception is the [Raise] result. *)

From Stdlib Require Import String Ascii List ZArith QArith Bool Lia.
From Stdlib Require Import DecimalString Permutation.
Import ListNotations.
Open Scope string_scope.
Open Scope Z_scope.
Open Scope list_scope.

(* ================================================================= *)
(** ** Python helpers *)

Module Py.

(** The exceptions the code modelled here can raise; [Exception] is the
    plain [Exception] class. *)
Inductive exn := KeyError | ValueError | Exception.

Inductive result (A : Type) :=
| Ok (a : A)
| Raise (e : exn).
Arguments Ok {A} a.
Arguments Raise {A} e.

Definition bind {A B} (r : result A) (k : A -> result B) : result B :=
  match r with
  | Ok a => k a
  | Raise e => Raise e
  end.

(** [x in xs] on a list of strings. *)
Definition list_contains (x : string) (xs : list string) : bool :=
  existsb (String.eqb x) xs.

Section Dict.
Variable V : Type.

Definition dict := list (string * V).

Definition keys (d : dict) : list string := map fst d.
Definition values (d : dict) : list V := map snd d.
Definition items (d : dict) : list (string * V) := d.

(** [d[k]] (raises KeyError when absent: [None] here). *)
Fixpoint getitem (k : string) (d : dict) : option V :=
  match d with
  | [] => None
  | (k', v) :: d' => if String.eqb k k' then Some v else getitem k d'
  end.

(** [k in d]. *)
Definition contains (k : string) (d : dict) : bool :=
  list_contains k (keys d).

(** [d[k] = v]: overwrite in place, or append a new entry. *)
Fixpoint setitem (k : string) (v : V) (d : dict) : dict :=
  match d with
  | [] => [(k, v)]
  | (k', v') :: d' =>
      if String.eqb k k' then (k', v) :: d' else (k', v') :: setitem k v d'
  end.

(** In-place mutation of the object stored under [k] (no-op when the key
    is absent; callers look the key up first). *)
Fixpoint mutate (k : string) (f : V -> V) (d : dict) : dict :=
  match d with
  | [] => []
  | (k', v') :: d' =>
      if String.eqb k k' then (k', f v') :: d' else (k', v') :: mutate k f d'
  end.
End Dict.
Arguments keys {V} d.
Arguments values {V} d.
Arguments items {V} d.
Arguments getitem {V} k d.
Arguments contains {V} k d.
Arguments setitem {V} k v d.
Arguments mutate {V} k f d.

(** [s.split(sep)] for a one-character separator: one more part than there
    are separators in [s]. *)
Fixpoint split (sep : ascii) (s : string) : list string :=
  match s with
  | EmptyString => [EmptyString]
  | String c s' =>
      if Ascii.eqb c sep then EmptyString :: split sep s'
      else match split sep s' with
           | [] => [String c EmptyString]
           | w :: ws => String c w :: ws
           end
  end.

(** [c in s] for a one-character string [c]. *)
Fixpoint has_char (c : ascii) (s : string) : bool :=
  match s with
  | EmptyString => false
  | String x s' => Ascii.eqb x c || has_char c s'
  end.

(** [s.count(sep)] for a one-character [sep]. *)
Fixpoint count (sep : ascii) (s : string) : nat :=
  match s with
  | EmptyString => O
  | String c s' => (if Ascii.eqb c sep then 1 else 0) + count sep s'
  end.

End Py.

Notation "x <- r ;; k" := (Py.bind r (fun x => k))
  (at level 61, r at next level, right associativity).

(* ================================================================= *)
(** ** Data model *)

(** Values a hyperparameter can take. *)
Inductive PyVal :=
| PyInt (z : Z)
| PyFloat (q : Q)
| PyStr (s : string).

(** [lightning_hpo.distributions], as used by the examples. *)
Inductive Distribution :=
| Uniform (low high : Q)
| LogUniform (low high : Q)
| IntUniform (low high : Z)
| Categorical (choices : list PyVal).

(** [lightning_hpo.commands.sweep.SweepConfig]: the fields [create_sweep]
    reads. *)
Module SweepConfig.
Record t := {
  sweep_id : string;
  script_path : string;
  n_trials : Z;
  simultaneous_trials : Z;
  requirements : list string;
  script_args : list string;
  distributions : list (string * Distribution);
  framework : string;
  cloud_compute : string;
  num_nodes : Z;
  logger : string;
  direction : string
}.
End SweepConfig.

(** [lightning_hpo.components.servers.db.models.Trial]: the stored record of
    a finished trial.  The class itself is not among the sources at hand;
    the fields are those [render_fn] reads, and [reports], which the spec
    lists in the record handed to the persistence collaborator. *)
Module Trial.
Record t := {
  id : option Z;
  sweep_id : string;
  trial_id : Z;
  params : list (string * PyVal);
  monitor : string;
  reports : list (Q * Z);
  best_model_score : option Q;
  has_succeeded : bool;
  url : string
}.
End Trial.

(** Modelled from the spec: the states of the trial state machine
    (section 4.3), [PENDING -> RUNNING -> {SUCCEEDED, PRUNED, FAILED}]. *)
Inductive Stage := PENDING | RUNNING | SUCCEEDED | PRUNED | FAILED.

(** Modelled from the spec: the terminal states of section 4.3. *)
Definition terminal (st : Stage) : bool :=
  match st with
  | SUCCEEDED | PRUNED | FAILED => true
  | PENDING | RUNNING => false
  end.

(** Modelled from the spec: a trial while its Sweep owns it, with the
    attributes of section 3 (lightning_hpo/sweep.py is not among the
    sources at hand).  [url] is the page of the run the dashboard links to.
    [forwarded] remembers that the record has already been handed to the
    Sweeper, which is what makes a terminal trial "newly" terminal or not. *)
Module TrialRun.
Record t := {
  trial_id : Z;
  params : list (string * PyVal);
  stage : Stage;
  reports : list (Q * Z);
  best_model_score : option Q;
  monitor : string;
  url : string;
  forwarded : bool
}.

Definition set_forwarded (b : bool) (r : t) : t :=
  {| trial_id := trial_id r; params := params r; stage := stage r;
     reports := reports r; best_model_score := best_model_score r;
     monitor := monitor r; url := url r; forwarded := b |}.

Definition set_stage (st : Stage) (r : t) : t :=
  {| trial_id := trial_id r; params := params r; stage := st;
     reports := reports r; best_model_score := best_model_score r;
     monitor := monitor r; url := url r; forwarded := forwarded r |}.

Definition add_reports (new : list (Q * Z)) (r : t) : t :=
  {| trial_id := trial_id r; params := params r; stage := stage r;
     reports := reports r ++ new; best_model_score := best_model_score r;
     monitor := monitor r; url := url r; forwarded := forwarded r |}.

Definition set_best_model_score (v : option Q) (r : t) : t :=
  {| trial_id := trial_id r; params := params r; stage := stage r;
     reports := reports r; best_model_score := v;
     monitor := monitor r; url := url r; forwarded := forwarded r |}.
End TrialRun.

Record CloudCompute := { cc_name : string; cc_count : Z }.
Record BuildConfig := { bc_requirements : list string }.
(** [optuna.study.StudyDirection], and the study [optuna.create_study]
    returns. *)
Inductive StudyDirection := MINIMIZE | MAXIMIZE.
Record Study := { study_direction : StudyDirection }.

(** [optuna.create_study(direction=...)]: the direction has to be one of
    the two strings "minimize" and "maximize"; anything else is a
    ValueError. *)
Definition create_study (direction : string) : Py.result Study :=
  if String.eqb direction "minimize"
  then Py.Ok {| study_direction := MINIMIZE |}
  else if String.eqb direction "maximize"
  then Py.Ok {| study_direction := MAXIMIZE |}
  else Py.Raise Py.ValueError.
Inductive AlgorithmImpl := OptunaAlgorithm (study : Study).

(** The [code] argument: [{"drive": self.drive, "name": config.sweep_id}]. *)
Record Code := { code_drive : string; code_name : string }.

(** [lightning_hpo.Sweep]: the constructor arguments [create_sweep] passes,
    the two attributes it mutates, and the trials the sweep owns (the
    class is not among the sources at hand; [trials] follows the spec). *)
Module Sweep.
Record t := {
  script_path : string;
  n_trials : Z;
  simultaneous_trials : Z;
  framework : string;
  script_args : list string;
  distributions : list (string * Distribution);
  cloud_compute : CloudCompute;
  sweep_id : string;
  code : Code;
  cloud_build_config : BuildConfig;
  logger : string;
  algorithm : AlgorithmImpl;
  has_failed : bool;
  restart_count : Z;
  trials : list TrialRun.t
}.

Definition set_restart_count (n : Z) (s : t) : t :=
  {| script_path := script_path s; n_trials := n_trials s;
     simultaneous_trials := simultaneous_trials s; framework := framework s;
     script_args := script_args s; distributions := distributions s;
     cloud_compute := cloud_compute s; sweep_id := sweep_id s;
     code := code s; cloud_build_config := cloud_build_config s;
     logger := logger s; algorithm := algorithm s;
     has_failed := has_failed s; restart_count := n; trials := trials s |}.

Definition set_has_failed (b : bool) (s : t) : t :=
  {| script_path := script_path s; n_trials := n_trials s;
     simultaneous_trials := simultaneous_trials s; framework := framework s;
     script_args := script_args s; distributions := distributions s;
     cloud_compute := cloud_compute s; sweep_id := sweep_id s;
     code := code s; cloud_build_config := cloud_build_config s;
     logger := logger s; algorithm := algorithm s;
     has_failed := b; restart_count := restart_count s; trials := trials s |}.

Definition set_trials (ts : list TrialRun.t) (s : t) : t :=
  {| script_path := script_path s; n_trials := n_trials s;
     simultaneous_trials := simultaneous_trials s; framework := framework s;
     script_args := script_args s; distributions := distributions s;
     cloud_compute := cloud_compute s; sweep_id := sweep_id s;
     code := code s; cloud_build_config := cloud_build_config s;
     logger := logger s; algorithm := algorithm s;
     has_failed := has_failed s; restart_count := restart_count s;
     trials := ts |}.
End Sweep.

(** [lightning.app.structures.Dict.__setitem__], the assignment
    [d[k] = v] on the structure [self.sweeps] is: a key that contains a dot
    is refused with an [Exception]; otherwise the entry is stored as in a
    plain dict. *)
Definition Dict_setitem {V : Type} (k : string) (v : V) (d : Py.dict V)
  : Py.result (Py.dict V) :=
  if Py.has_char "." k then Py.Raise Py.Exception
  else Py.Ok (Py.setitem k v d).

(** A Sweep object on the heap: its identity and its current attributes. *)
Record SweepObj := { addr : nat; obj : Sweep.t }.

Definition on_obj (f : Sweep.t -> Sweep.t) (o : SweepObj) : SweepObj :=
  {| addr := addr o; obj := f (obj o) |}.

(** [Sweeper]: the [sweeps] structure, the code drive, and the number of
    Sweep objects constructed so far. *)
Record Sweeper := {
  sweeps : Py.dict SweepObj;
  drive : string;
  allocated : nat
}.

(** Addresses name objects: the Sweep objects of the mapping have pairwise
    different addresses, all handed out by the allocation counter. *)
Definition well_addressed (self : Sweeper) : Prop :=
  NoDup (map addr (Py.values (sweeps self)))
  /\ Forall (fun o => (addr o < allocated self)%nat) (Py.values (sweeps self)).

(** [Sweeper.__init__]. *)
Definition Sweeper_init : Sweeper :=
  {| sweeps := []; drive := "lit://code"; allocated := O |}.

(* ================================================================= *)
(** ** Sweeper.create_sweep *)

Definition msg_launched (sweep_id : string) : string :=
  ("Launched a sweep " ++ sweep_id)%string.

Definition msg_updated (sweep_id : string) : string :=
  ("Updated code for Sweep " ++ sweep_id ++ ".")%string.

Definition msg_running (sweep_id : string) : string :=
  ("The current Sweep " ++ sweep_id ++ " is running. It couldn't be updated.")%string.

(** The object the call [Sweep(script_path=..., ..., algorithm=...)] of
    lines 46-59 makes once its arguments are evaluated, [study] being the
    value of [optuna.create_study(direction=config.direction)].  A new
    Sweep has no trials, has not failed and has never been restarted (the
    spec: [restart_count] is "incremented on recovery from failure",
    trials are created by the scheduler). *)
Definition new_Sweep (self : Sweeper) (config : SweepConfig.t)
    (study : Study) : Sweep.t :=
  {| Sweep.script_path := SweepConfig.script_path config;
     Sweep.n_trials := SweepConfig.n_trials config;
     Sweep.simultaneous_trials := SweepConfig.simultaneous_trials config;
     Sweep.framework := SweepConfig.framework config;
     Sweep.script_args := SweepConfig.script_args config;
     Sweep.distributions := SweepConfig.distributions config;
     Sweep.cloud_compute :=
       {| cc_name := SweepConfig.cloud_compute config;
          cc_count := SweepConfig.num_nodes config |};
     Sweep.sweep_id := SweepConfig.sweep_id config;
     Sweep.code :=
       {| code_drive := drive self;
          code_name := SweepConfig.sweep_id config |};
     Sweep.cloud_build_config :=
       {| bc_requirements := SweepConfig.requirements config |};
     Sweep.logger := SweepConfig.logger config;
     Sweep.algorithm := OptunaAlgorithm study;
     Sweep.has_failed := false;
     Sweep.restart_count := 0;
     Sweep.trials := [] |}.

Definition with_sweeps (d : Py.dict SweepObj) (self : Sweeper) : Sweeper :=
  {| sweeps := d; drive := drive self; allocated := allocated self |}.

(** Allocation of a fresh Sweep object. *)
Definition alloc (s : Sweep.t) (self : Sweeper) : SweepObj * Sweeper :=
  ({| addr := allocated self; obj := s |},
   {| sweeps := sweeps self; drive := drive self;
      allocated := S (allocated self) |}).

(** [self.sweeps[k]], raising KeyError on a missing key. *)
Definition sweeps_at (k : string) (self : Sweeper) : Py.result SweepObj :=
  match Py.getitem k (sweeps self) with
  | Some o => Py.Ok o
  | None => Py.Raise Py.KeyError
  end.

(** Lines 46-59, the right-hand side of the assignment: the arguments of
    the call are evaluated, the study (line 58) being the only one that
    can fail, and the Sweep object is constructed. *)
Definition construct_Sweep (config : SweepConfig.t) (self : Sweeper)
  : Py.result (SweepObj * Sweeper) :=
  study <- create_study (SweepConfig.direction config) ;;
  Py.Ok (alloc (new_Sweep self config study) self).

Definition create_sweep (config : SweepConfig.t) (self : Sweeper)
  : Py.result (string * Sweeper) :=
  let k := SweepConfig.sweep_id config in
  let sweep_ids := Py.keys (sweeps self) in
  if negb (Py.list_contains k sweep_ids) then
    (* the right-hand side first: the Sweep is constructed ... *)
    c <- construct_Sweep config self ;;
    (* ... then it is assigned to self.sweeps[k] *)
    d <- Dict_setitem k (fst c) (sweeps (snd c)) ;;
    Py.Ok (msg_launched k, with_sweeps d (snd c))
  else
    o <- sweeps_at k self ;;
    if Sweep.has_failed (obj o) then
      (* self.sweeps[k].restart_count += 1 *)
      o1 <- sweeps_at k self ;;
      let self1 :=
        with_sweeps
          (Py.mutate k
             (on_obj (Sweep.set_restart_count (Sweep.restart_count (obj o1) + 1)))
             (sweeps self)) self in
      (* self.sweeps[k].has_failed = False *)
      _ <- sweeps_at k self1 ;;
      let self2 :=
        with_sweeps
          (Py.mutate k (on_obj (Sweep.set_has_failed false)) (sweeps self1))
          self1 in
      Py.Ok (msg_updated k, self2)
    else
      Py.Ok (msg_running k, self).

(** The Sweeper a call of [create_sweep] that raised leaves behind.  A
    raise happens while launching only, before anything is stored: the
    Sweep that was constructed, if the call got that far, is not stored
    anywhere and is dropped; the mapping is as it was. *)
Definition after_raise (config : SweepConfig.t) (self : Sweeper) : Sweeper :=
  match construct_Sweep config self with
  | Py.Ok c => snd c
  | Py.Raise _ => self
  end.

(** Whether a request can be launched: its direction is one optuna knows
    and its sweep id has no dot. *)
Definition launchable (config : SweepConfig.t) : bool :=
  match create_study (SweepConfig.direction config) with
  | Py.Ok _ => negb (Py.has_char "." (SweepConfig.sweep_id config))
  | Py.Raise _ => false
  end.

(** The attribute values of a sweep after a restart. *)
Definition restarted (s : Sweep.t) : Sweep.t :=
  Sweep.set_has_failed false
    (Sweep.set_restart_count (Sweep.restart_count s + 1) s).

(** The three outcomes of a create request, and the status string of each. *)
Inductive Outcome := Launched | Restarted | Rejected.

Definition message (o : Outcome) (sweep_id : string) : string :=
  match o with
  | Launched => msg_launched sweep_id
  | Restarted => msg_updated sweep_id
  | Rejected => msg_running sweep_id
  end.

(** Which branch of [create_sweep] a request takes in a given state. *)
Definition outcome (config : SweepConfig.t) (self : Sweeper) : Outcome :=
  match Py.getitem (SweepConfig.sweep_id config) (sweeps self) with
  | None => Launched
  | Some o => if Sweep.has_failed (obj o) then Restarted else Rejected
  end.

(* ================================================================= *)
(** ** Sweeper.run *)

(** What the outside world shows during one tick.  The works behind
    [file_server] and [db] run out of process: whether they are alive, and
    the url of the database, are read from the environment.  The rest is
    what a trial's execution collaborator and the search library answer
    when a Sweep polls them. *)
Inductive TerminalStatus := ts_none | ts_succeeded | ts_failed.

Record ExecReport := {
  poll_reports : list (Q * Z);
  terminal_status : TerminalStatus;
  exec_best_model_score : option Q
}.

Record Env := {
  file_server_alive : bool;
  db_alive : bool;
  db_url : string;
  exec_report : string -> Z -> ExecReport;
  trial_start : string -> Z -> list (string * PyVal);
  should_prune : string -> Z -> list Q -> bool
}.

Inductive Event :=
| EvFileServerRun
| EvDbRun
| EvDbVizRun
| EvSweepRun (a : nat)
| EvPost (url : string) (data : Trial.t).

Section Run.
(** The two methods of [Sweep] the Sweeper calls.  [Sweep.run] may read
    the environment and mutates its own object; [Sweep.get_trials]
    returns a list of records and may mutate its own object too. *)
Variable Sweep_run : Env -> Sweep.t -> Sweep.t.
Variable Sweep_get_trials : Sweep.t -> list Trial.t * Sweep.t.

(** Lines 36-38: [for sweep in self.sweeps.values(): sweep.run();
    trials.extend(sweep.get_trials())]. *)
Fixpoint run_loop (e : Env) (entries : Py.dict SweepObj)
    (trials : list Trial.t)
  : Py.dict SweepObj * list Trial.t * list Event :=
  match entries with
  | [] => ([], trials, [])
  | (k, sweep) :: rest =>
      let s1 := Sweep_run e (obj sweep) in
      let '(ts, s2) := Sweep_get_trials s1 in
      let '(rest', trials', evs) := run_loop e rest (trials ++ ts) in
      ((k, {| addr := addr sweep; obj := s2 |}) :: rest',
       trials',
       EvSweepRun (addr sweep) :: evs)
  end.

(** Lines 40-41. *)
Fixpoint post_loop (e : Env) (trials : list Trial.t) : list Event :=
  match trials with
  | [] => []
  | trial :: rest => EvPost (db_url e ++ "/trial")%string trial :: post_loop e rest
  end.

Definition run (e : Env) (self : Sweeper) : Sweeper * list Event :=
  let evs0 := [EvFileServerRun; EvDbRun; EvDbVizRun] in
  if file_server_alive e && db_alive e then
    let '(d, trials, evs1) := run_loop e (sweeps self) [] in
    let self1 := with_sweeps d self in
    match trials with
    | [] => (self1, evs0 ++ evs1)
    | _ :: _ => (self1, evs0 ++ evs1 ++ post_loop e trials)
    end
  else (self, evs0).

(** One pass of the loop body over one Sweep object: what becomes of the
    object, and the records it hands out. *)
Definition tick_obj (e : Env) (sweep : SweepObj) : SweepObj :=
  {| addr := addr sweep;
     obj := snd (Sweep_get_trials (Sweep_run e (obj sweep))) |}.

Definition collected (e : Env) (sweep : SweepObj) : list Trial.t :=
  fst (Sweep_get_trials (Sweep_run e (obj sweep))).

(** A history of the flow: commands and ticks, in order. *)
Inductive Op :=
| OpCreate (config : SweepConfig.t)
| OpTick (e : Env).

(** The sweep ids of the create requests of a history that can be
    launched. *)
Definition launchable_ids (ops : list Op) : list string :=
  flat_map (fun op => match op with
                      | OpCreate config =>
                          if launchable config
                          then [SweepConfig.sweep_id config] else []
                      | OpTick _ => []
                      end) ops.

(** The sweep ids of the create requests of a history. *)
Definition created_ids (ops : list Op) : list string :=
  flat_map (fun op => match op with
                      | OpCreate config => [SweepConfig.sweep_id config]
                      | OpTick _ => []
                      end) ops.

Definition step (op : Op) (self : Sweeper)
  : Py.result (Sweeper * list Event) :=
  match op with
  | OpCreate config =>
      (* a command that raises is answered with the error; the flow goes
         on with what the call left behind *)
      match create_sweep config self with
      | Py.Ok r => Py.Ok (snd r, [])
      | Py.Raise _ => Py.Ok (after_raise config self, [])
      end
  | OpTick e => Py.Ok (run e self)
  end.

Fixpoint exec (ops : list Op) (self : Sweeper)
  : Py.result (Sweeper * list Event) :=
  match ops with
  | [] => Py.Ok (self, [])
  | op :: ops' =>
      r1 <- step op self ;;
      r2 <- exec ops' (fst r1) ;;
      Py.Ok (fst r2, snd r1 ++ snd r2)
  end.
End Run.

(** Projections of a trace. *)
Definition sweep_runs (evs : list Event) : list nat :=
  flat_map (fun ev => match ev with EvSweepRun a => [a] | _ => [] end) evs.

Definition posts (evs : list Event) : list Trial.t :=
  flat_map (fun ev => match ev with EvPost _ t => [t] | _ => [] end) evs.

(** How many times the record of trial [tid] of sweep [k] was posted. *)
Definition is_record_of (k : string) (tid : Z) (t : Trial.t) : bool :=
  String.eqb (Trial.sweep_id t) k && Z.eqb (Trial.trial_id t) tid.

Definition count_posts (k : string) (tid : Z) (evs : list Event) : nat :=
  length (filter (is_record_of k tid) (posts evs)).

(* ================================================================= *)
(** ** Sweep.get_trials and Sweep.run *)

(** Modelled from the spec: "newly-terminal", terminal and not handed over
    yet. *)
Definition newly_terminal (r : TrialRun.t) : bool :=
  terminal (TrialRun.stage r) && negb (TrialRun.forwarded r).

Definition is_succeeded (st : Stage) : bool :=
  match st with SUCCEEDED => true | _ => false end.

(** Modelled from the spec: the record of a terminal trial (section 6),
    "sweep_id, trial_id, params, monitor, reports, best_model_score,
    succeeded"; the database assigns [id] on insertion. *)
Definition record_of (s : Sweep.t) (r : TrialRun.t) : Trial.t :=
  {| Trial.id := None;
     Trial.sweep_id := Sweep.sweep_id s;
     Trial.trial_id := TrialRun.trial_id r;
     Trial.params := TrialRun.params r;
     Trial.monitor := TrialRun.monitor r;
     Trial.reports := TrialRun.reports r;
     Trial.best_model_score := TrialRun.best_model_score r;
     Trial.has_succeeded := is_succeeded (TrialRun.stage r);
     Trial.url := TrialRun.url r |}.

(** Modelled from the spec: a newly-terminal trial is marked once its
    record is handed out. *)
Definition hand_over (r : TrialRun.t) : TrialRun.t :=
  if newly_terminal r then TrialRun.set_forwarded true r else r.

(** Modelled from the spec: [Sweep.get_trials] (lightning_hpo/sweep.py is
    not part of the sources at hand).  The Sweeper "collects newly-terminal
    Trials from every Sweep": the call returns the record of every trial
    that is terminal and was not returned before, and remembers that it
    returned them. *)
Definition Sweep_get_trials (s : Sweep.t) : list Trial.t * Sweep.t :=
  (map (record_of s) (filter newly_terminal (Sweep.trials s)),
   Sweep.set_trials (map hand_over (Sweep.trials s)) s).

(** Modelled from the spec: what is promised of [Sweep.run]
    (lightning_hpo/sweep.py), whatever the scheduler does:
    the sweep keeps its id; "all terminal states are final" and a trial
    "becomes an immutable record once terminal"; trial ids are assigned
    "with no gaps or reuse"; and handing records over is the business of
    [get_trials] alone. *)
Record Sweep_run_contract (Sweep_run : Env -> Sweep.t -> Sweep.t) : Prop := {
  run_keeps_sweep_id :
    forall e s, Sweep.sweep_id (Sweep_run e s) = Sweep.sweep_id s;
  run_keeps_terminal :
    forall e s r,
      In r (Sweep.trials s) -> terminal (TrialRun.stage r) = true ->
      In r (Sweep.trials (Sweep_run e s));
  run_unique_ids :
    forall e s,
      NoDup (map TrialRun.trial_id (Sweep.trials s)) ->
      NoDup (map TrialRun.trial_id (Sweep.trials (Sweep_run e s)));
  run_forwards_nothing :
    forall e s r',
      In r' (Sweep.trials (Sweep_run e s)) -> TrialRun.forwarded r' = true ->
      exists r, In r (Sweep.trials s)
                /\ TrialRun.trial_id r = TrialRun.trial_id r'
                /\ TrialRun.forwarded r = true
}.

(** Modelled from the spec: section 4.4 (a), one trial advanced through
    the state machine of section 4.3 from what its execution collaborator
    and the algorithm's pruning decision report. *)
Definition advance (e : Env) (sid : string) (r : TrialRun.t) : TrialRun.t :=
  match TrialRun.stage r with
  | PENDING => TrialRun.set_stage RUNNING r
  | RUNNING =>
      let rep := exec_report e sid (TrialRun.trial_id r) in
      let r1 := TrialRun.add_reports (poll_reports rep) r in
      match poll_reports rep with
      | _ :: _ =>
          if should_prune e sid (TrialRun.trial_id r)
               (map fst (TrialRun.reports r1))
          then TrialRun.set_stage PRUNED r1
          else r1
      | [] =>
          match terminal_status rep with
          | ts_none => r1
          | ts_succeeded =>
              TrialRun.set_stage SUCCEEDED
                (TrialRun.set_best_model_score (exec_best_model_score rep) r1)
          | ts_failed => TrialRun.set_stage FAILED r1
          end
      end
  | SUCCEEDED | PRUNED | FAILED => r
  end.

(** Modelled from the spec: "allocate the next trial_id", ids increase
    from 0. *)
Definition next_trial_id (trials : list TrialRun.t) : Z :=
  fold_right (fun r acc => Z.max (TrialRun.trial_id r + 1) acc) 0 trials.

(** Modelled from the spec: the "count of trials not in a terminal
    state". *)
Definition active (trials : list TrialRun.t) : Z :=
  Z.of_nat (length (filter (fun r => negb (terminal (TrialRun.stage r))) trials)).

(** Modelled from the spec: a trial as admitted, with the parameters
    [algorithm.trial_start] answers, already [RUNNING]. *)
Definition new_trial (e : Env) (sid : string) (tid : Z) : TrialRun.t :=
  {| TrialRun.trial_id := tid;
     TrialRun.params := trial_start e sid tid;
     TrialRun.stage := RUNNING;
     TrialRun.reports := [];
     TrialRun.best_model_score := None;
     TrialRun.monitor := EmptyString;
     TrialRun.url := EmptyString;
     TrialRun.forwarded := false |}.

(** Modelled from the spec: section 4.4 (b), "while that count is below
    simultaneous_trials and total trials created is below n_trials, create
    a new Trial".  At most [n_trials] trials are ever created, which bounds
    the loop. *)
Fixpoint fill_slots (fuel : nat) (e : Env) (s : Sweep.t)
    (trials : list TrialRun.t) : list TrialRun.t :=
  match fuel with
  | O => trials
  | S fuel' =>
      if (active trials <? Sweep.simultaneous_trials s)
         && (Z.of_nat (length trials) <? Sweep.n_trials s)
      then fill_slots fuel' e s
             (trials ++ [new_trial e (Sweep.sweep_id s) (next_trial_id trials)])
      else trials
  end.

(** Modelled from the spec: one tick of [Sweep.run] (section 4.4); a
    failed sweep does nothing until it is restarted. *)
Definition Sweep_run_scheduler (e : Env) (s : Sweep.t) : Sweep.t :=
  if Sweep.has_failed s then s
  else
    let trials1 := map (advance e (Sweep.sweep_id s)) (Sweep.trials s) in
    Sweep.set_trials
      (fill_slots (Z.to_nat (Sweep.n_trials s)) e s trials1) s.

(* ================================================================= *)
(** ** Invariant of the flow *)

(** Bookkeeping that ties the posts made so far to the trials the sweeps
    hold: how many trials of id [tid] a sweep has handed over. *)
Definition forwarded_count (tid : Z) (trials : list TrialRun.t) : nat :=
  length (filter (fun r => Z.eqb (TrialRun.trial_id r) tid
                           && TrialRun.forwarded r) trials).

Definition expected_posts (self : Sweeper) (k : string) (tid : Z) : nat :=
  match Py.getitem k (sweeps self) with
  | Some o => forwarded_count tid (Sweep.trials (obj o))
  | None => O
  end.

(** A sweep between two ticks: it carries the key it is stored under, its
    trial ids are pairwise different, and its trials handed over are
    exactly its terminal trials. *)
Definition settled (s : Sweep.t) : Prop :=
  NoDup (map TrialRun.trial_id (Sweep.trials s))
  /\ forall r, In r (Sweep.trials s) ->
       TrialRun.forwarded r = terminal (TrialRun.stage r).

Definition entry_ok (kv : string * SweepObj) : Prop :=
  Sweep.sweep_id (obj (snd kv)) = fst kv /\ settled (obj (snd kv)).

Record coherent (self : Sweeper) (evs : list Event) : Prop := {
  coh_keys : NoDup (Py.keys (sweeps self));
  coh_entries : Forall entry_ok (sweeps self);
  coh_posts : forall k tid, count_posts k tid evs = expected_posts self k tid
}.

(* ================================================================= *)
(** ** The Algorithm interface (lightning_hpo/algorithm/base.py) *)

Module Algorithm.
(** Type annotations as written in the class. *)
Inductive annot :=
| a_int
| a_float
| a_bool
| a_str
| a_Any
| a_List (elt : annot)
| a_Dict (key val : annot).

(** One [@abstractmethod] of the class: its name, its parameters after
    [self] with their annotation if any, and its return annotation if
    any. *)
Record method := {
  name : string;
  params : list (string * option annot);
  returns : option annot
}.

Definition abstract_methods : list method :=
  [ {| name := "register_distributions";
       params := [("distributions", None)];
       returns := None |};
    {| name := "trial_start";
       params := [("trial_id", Some a_int)];
       returns := None |};
    {| name := "trial_end";
       params := [("trial_id", Some a_int); ("score", Some a_float)];
       returns := None |};
    {| name := "should_prune";
       params := [("trial_id", Some a_int); ("reports", Some (a_List a_float))];
       returns := Some a_bool |};
    {| name := "get_params";
       params := [("trial_id", Some a_int)];
       returns := Some (a_Dict a_str a_Any) |} ].

Definition names : list string := map name abstract_methods.

(** The declaration of the method called [n], if the class has one. *)
Definition lookup (n : string) : option method :=
  find (fun m => String.eqb (name m) n) abstract_methods.
End Algorithm.

(* ================================================================= *)
(** ** render_fn *)

(** The calls made on the streamlit API, in order. *)
Inductive StCall :=
| st_header (text : string)
| st_write (text : string)
| st_code (text : string)
| st_tabs (names : list string)
| st_enter (tab : string)
| st_expander (label : string)
| st_checkbox (label key : string)
| st_json (params : list (string * PyVal)) (monitor : string)
    (best_model_score : option Q)
| components_html (html : string) (height : Z).

Definition dquote : string := String "034"%char EmptyString.

(** [str(n)] for an int, and for an optional int. *)
Definition str_int (n : Z) : string := NilZero.string_of_int (Z.to_int n).

Definition str_opt_int (n : option Z) : string :=
  match n with
  | Some z => str_int z
  | None => "None"
  end.

Definition example_command : string :=
  ("lightning sweep train.py --n_trials=2 --num_nodes=2 --model.lr="
   ++ dquote ++ "log_uniform(0.001, 0.1)" ++ dquote
   ++ " --trainer.max_epochs=5 --trainer.callbacks=ModelCheckpoint")%string.

(** [d[k]] as an expression: KeyError when the key is missing. *)
Definition dict_at {V} (k : string) (d : Py.dict V) : Py.result V :=
  match Py.getitem k d with
  | Some v => Py.Ok v
  | None => Py.Raise Py.KeyError
  end.

Definition UserSweeps := Py.dict (Py.dict (list Trial.t)).

(** [{}]. *)
Definition empty_dict (V : Type) : Py.dict V := [].

(** Lines 101-106: the body of the grouping loop. *)
Definition group_trial (user_sweeps : UserSweeps) (trial : Trial.t)
  : Py.result UserSweeps :=
  match Py.split "-" (Trial.sweep_id trial) with
  | [username; sweep_id] =>
      let us1 : UserSweeps :=
        if negb (Py.contains username user_sweeps)
        then Py.setitem username (empty_dict (list Trial.t)) user_sweeps
        else user_sweeps in
      inner <- dict_at username us1 ;;
      let us2 : UserSweeps :=
        if negb (Py.contains sweep_id inner)
        then Py.mutate username (Py.setitem sweep_id []) us1
        else us1 in
      inner2 <- dict_at username us2 ;;
      _ <- dict_at sweep_id inner2 ;;
      Py.Ok (Py.mutate username
               (Py.mutate sweep_id (fun l => l ++ [trial])) us2)
  | _ => Py.Raise Py.ValueError
  end.

Fixpoint group_loop (trials : list Trial.t) (user_sweeps : UserSweeps)
  : Py.result UserSweeps :=
  match trials with
  | [] => Py.Ok user_sweeps
  | trial :: rest =>
      us <- group_trial user_sweeps trial ;;
      group_loop rest us
  end.

Section Render.
(** What the user has ticked: the answer of [st.checkbox] for a key. *)
Variable checked : string -> bool.

(** Lines 116-124. *)
Definition render_trials (sweep_id : string) (trials : list Trial.t)
  : list StCall :=
  flat_map
    (fun trial =>
       let key :=
         ("checkbox_" ++ str_opt_int (Trial.id trial) ++ "_" ++ sweep_id)%string in
       st_checkbox ("Trial " ++ str_int (Trial.trial_id trial))%string key
       :: (if checked key
           then [st_json (Trial.params trial) (Trial.monitor trial)
                   (Trial.best_model_score trial)]
           else []))
    trials.

(** Lines 111-126.  The variable [trial] is whatever the last loop over
    trials left in it: it enters with the value from the enclosing scope
    and leaves with the last trial of the last sweep shown. *)
Fixpoint render_sweeps (items : list (string * list Trial.t))
    (trial : Trial.t) : list StCall * Trial.t :=
  match items with
  | [] => ([], trial)
  | (sweep_id, trials) :: rest =>
      let status :=
        if Trial.has_succeeded trial then "/ Succeeded" else "/ Failed" in
      let head :=
        [st_expander (sweep_id ++ " " ++ status)%string;
         st_tabs ["Trials"; "Logging"];
         st_enter "Trials"] in
      let body := render_trials sweep_id trials in
      let trial1 := last trials trial in
      let foot :=
        [st_enter "Logging";
         components_html
           ("<a href=" ++ dquote ++ Trial.url trial1 ++ dquote
            ++ " target=" ++ dquote ++ "_blank" ++ dquote
            ++ ">Weights & Biases URL</a>")%string 50] in
      let '(calls, trial2) := render_sweeps rest trial1 in
      (head ++ body ++ foot ++ calls, trial2)
  end.

(** Lines 109-110. *)
Fixpoint render_users (user_sweeps : UserSweeps) (trial : Trial.t)
  : list StCall :=
  match user_sweeps with
  | [] => []
  | (username, sweeps_of_user) :: rest =>
      let '(calls, trial1) := render_sweeps (Py.items sweeps_of_user) trial in
      st_enter username :: calls ++ render_users rest trial1
  end.

(** [render_fn], given the rows [session.exec(select(Trial)).all()]
    returned. *)
Definition render_fn (trials : list Trial.t) : Py.result (list StCall) :=
  match trials with
  | [] =>
      Py.Ok [st_header "You haven't launched any sweeps yet.";
             st_write "Here is an example to submit a sweep.";
             st_code example_command]
  | first :: others =>
      user_sweeps <- group_loop trials [] ;;
      let trial := last others first in
      Py.Ok (st_tabs (Py.keys user_sweeps) :: render_users user_sweeps trial)
  end.
End Render.

(* ================================================================= *)
(** ** HPOSweeper.configure_layout *)

(** What a tab of the app shows: the Sweeper's dashboard, the database
    visualisation, or something a Sweep object exposes. *)
Inductive Content :=
| ContentSweeper
| ContentDbViz
| ContentOfSweep (a : nat) (part : string).

(** A tab: [{"name": ..., "content": ...}]. *)
Record Tab := { tab_name : string; tab_content : Content }.

Section Layout.
(** The attribute [sweep.show] and the method [sweep.configure_layout()] of
    a Sweep, both read only. *)
Variable Sweep_show : Sweep.t -> bool.
Variable Sweep_configure_layout : SweepObj -> list Tab.

(** Lines 140-142: [for sweep in self.sweeper.sweeps.values(): if
    sweep.show: tabs += sweep.configure_layout()]. *)
Fixpoint layout_loop (values : list SweepObj) (tabs : list Tab) : list Tab :=
  match values with
  | [] => tabs
  | sweep :: rest =>
      layout_loop rest
        (if Sweep_show (obj sweep)
         then tabs ++ Sweep_configure_layout sweep
         else tabs)
  end.

(** [HPOSweeper.configure_layout], on the Sweeper the flow holds. *)
Definition HPOSweeper_configure_layout (sweeper : Sweeper) : list Tab :=
  let tabs := [{| tab_name := "Team Control"; tab_content := ContentSweeper |}] in
  let tabs :=
    tabs ++ [{| tab_name := "Database Viz"; tab_content := ContentDbViz |}] in
  layout_loop (Py.values (sweeps sweeper)) tabs.
End Layout.

(* ================================================================= *)
(** ** Vocabulary of the statements *)

(** The elements of [xs] that are not in [seen], each once, in the order in
    which they first appear. *)
Fixpoint first_seen (seen xs : list string) : list string :=
  match xs with
  | [] => []
  | x :: rest =>
      if Py.list_contains x seen then first_seen seen rest
      else x :: first_seen (seen ++ [x]) rest
  end.

(** The two parts of a sweep id of the form user-name. *)
Definition username_of (trial : Trial.t) : string :=
  nth 0 (Py.split "-" (Trial.sweep_id trial)) EmptyString.

Definition sweep_name_of (trial : Trial.t) : string :=
  nth 1 (Py.split "-" (Trial.sweep_id trial)) EmptyString.

(** Everything filed in [user_sweeps]: each trial with the user and the
    sweep name it is filed under, in the order of the dictionaries. *)
Definition filed_of_user (user_entry : string * Py.dict (list Trial.t))
  : list (string * string * Trial.t) :=
  flat_map (fun sweep_entry =>
              map (fun trial => (fst user_entry, fst sweep_entry, trial))
                  (snd sweep_entry))
           (snd user_entry).

Definition filed (user_sweeps : UserSweeps)
  : list (string * string * Trial.t) :=
  flat_map filed_of_user user_sweeps.

(** The details [render_fn] shows for a trial, and the details shown
    among the calls made, in order. *)
Definition json_of (trial : Trial.t)
  : list (string * PyVal) * string * option Q :=
  (Trial.params trial, Trial.monitor trial, Trial.best_model_score trial).

Definition jsons (calls : list StCall)
  : list (list (string * PyVal) * string * option Q) :=
  flat_map (fun c => match c with
                     | st_json params monitor best => [(params, monitor, best)]
                     | _ => []
                     end) calls.

(** [user_sweeps] begins with user [u0], whose first sweep is [n0]. *)
Definition starts_with (u0 n0 : string) (user_sweeps : UserSweeps) : Prop :=
  exists ts m rest, user_sweeps = (u0, (n0, ts) :: m) :: rest.

(** A row with the user and the sweep name its sweep id splits into. *)
Definition tagged (trial : Trial.t) : string * string * Trial.t :=
  (username_of trial, sweep_name_of trial, trial).

(** The label and the key of the checkbox [render_fn] draws for a trial
    filed under the sweep name [name]. *)
Definition checkbox_of (name : string) (trial : Trial.t) : string * string :=
  (("Trial " ++ str_int (Trial.trial_id trial))%string,
   ("checkbox_" ++ str_opt_int (Trial.id trial) ++ "_" ++ name)%string).

(** The checkboxes among the calls made, in order. *)
Definition checkboxes (calls : list StCall) : list (string * string) :=
  flat_map (fun c => match c with
                     | st_checkbox label key => [(label, key)]
                     | _ => []
                     end) calls.

(* ================================================================= *)
(** ** Concrete values used in examples *)

Definition cfg (sweep_id : string) (n_trials simultaneous_trials : Z)
  : SweepConfig.t :=
  {| SweepConfig.sweep_id := sweep_id;
     SweepConfig.script_path := "train.py";
     SweepConfig.n_trials := n_trials;
     SweepConfig.simultaneous_trials := simultaneous_trials;
     SweepConfig.requirements := [];
     SweepConfig.script_args := [];
     SweepConfig.distributions := [("model.lr", LogUniform (1 # 1000) (1 # 10))];
     SweepConfig.framework := "pytorch_lightning";
     SweepConfig.cloud_compute := "cpu";
     SweepConfig.num_nodes := 1;
     SweepConfig.logger := "wandb";
     SweepConfig.direction := "maximize" |}.

(** The study of a request with direction "maximize". *)
Definition maximize : Study := {| study_direction := MAXIMIZE |}.

(** A request as [cfg], with another direction. *)
Definition cfg_direction (sweep_id direction : string) : SweepConfig.t :=
  {| SweepConfig.sweep_id := sweep_id;
     SweepConfig.script_path := "train.py";
     SweepConfig.n_trials := 2;
     SweepConfig.simultaneous_trials := 1;
     SweepConfig.requirements := [];
     SweepConfig.script_args := [];
     SweepConfig.distributions := [("model.lr", LogUniform (1 # 1000) (1 # 10))];
     SweepConfig.framework := "pytorch_lightning";
     SweepConfig.cloud_compute := "cpu";
     SweepConfig.num_nodes := 1;
     SweepConfig.logger := "wandb";
     SweepConfig.direction := direction |}.

(** An environment in which every polled trial has just succeeded. *)
Definition env (fs db : bool) : Env :=
  {| file_server_alive := fs;
     db_alive := db;
     db_url := "http://db";
     exec_report := fun _ _ =>
       {| poll_reports := [];
          terminal_status := ts_succeeded;
          exec_best_model_score := Some (9 # 10) |};
     trial_start := fun _ _ => [("model.lr", PyFloat (1 # 100))];
     should_prune := fun _ _ _ => false |}.

Definition row (sweep_id : string) (trial_id : Z) (ok : bool) : Trial.t :=
  {| Trial.id := Some (trial_id + 1);
     Trial.sweep_id := sweep_id;
     Trial.trial_id := trial_id;
     Trial.params := [("model.lr", PyFloat (1 # 100))];
     Trial.monitor := "val_acc";
     Trial.reports := [];
     Trial.best_model_score := Some (9 # 10);
     Trial.has_succeeded := ok;
     Trial.url := "http://wandb/run" |}.


(** A history: alice launches a sweep of two trials, one at a time; four
    ticks follow, the database being down during the second. *)
Definition history : list Op :=
  [OpCreate (cfg "alice-exp1" 2 1);
   OpTick (env true true);
   OpTick (env true false);
   OpTick (env true true);
   OpTick (env true true);
   OpTick (env true true)].

(** A sweeper holding a failed sweep of alice and a live sweep of bob. *)
Definition failed_sweep : Sweep.t :=
  Sweep.set_trials
    [{| TrialRun.trial_id := 0;
        TrialRun.params := [("model.lr", PyFloat (1 # 100))];
        TrialRun.stage := SUCCEEDED;
        TrialRun.reports := [(9 # 10, 0)];
        TrialRun.best_model_score := Some (9 # 10);
        TrialRun.monitor := "val_acc";
        TrialRun.url := EmptyString;
        TrialRun.forwarded := true |}]
    (Sweep.set_has_failed true (new_Sweep Sweeper_init (cfg "alice-exp1" 5 1) maximize)).

Definition two_sweeps : Sweeper :=
  {| sweeps :=
       [("alice-exp1", {| addr := 0%nat; obj := failed_sweep |});
        ("bob-exp2",
         {| addr := 1%nat; obj := new_Sweep Sweeper_init (cfg "bob-exp2" 3 3) maximize |})];
     drive := "lit://code";
     allocated := 2 |}.

(** A sweeper whose two sweeps each have one trial running. *)
Definition running_trial : TrialRun.t :=
  {| TrialRun.trial_id := 0;
     TrialRun.params := [("model.lr", PyFloat (1 # 100))];
     TrialRun.stage := RUNNING;
     TrialRun.reports := [];
     TrialRun.best_model_score := None;
     TrialRun.monitor := "val_acc";
     TrialRun.url := "http://wandb/run";
     TrialRun.forwarded := false |}.

Definition busy_sweeps : Sweeper :=
  {| sweeps :=
       [("alice-exp1",
         {| addr := 0%nat;
            obj := Sweep.set_trials [running_trial]
                     (new_Sweep Sweeper_init (cfg "alice-exp1" 1 1) maximize) |});
        ("bob-exp2",
         {| addr := 1%nat;
            obj := Sweep.set_trials [running_trial]
                     (new_Sweep Sweeper_init (cfg "bob-exp2" 1 1) maximize) |})];
     drive := "lit://code";
     allocated := 2 |}.

(* ================================================================= *)
(** * Properties *)

(** ** Dictionaries *)

Section DictFacts.
Variable V : Type.
Implicit Types (d : Py.dict V) (k : string) (v : V).

Lemma contains_getitem k d :
  Py.list_contains k (Py.keys d) = true <-> exists v, Py.getitem k d = Some v.
Proof.
  induction d as [|[k' v'] d IH]; simpl.
  - split; [discriminate | intros [v H]; discriminate].
  - destruct (String.eqb k k'); simpl.
    + split; [eauto | reflexivity].
    + exact IH.
Qed.

Lemma not_contains_getitem k d :
  Py.list_contains k (Py.keys d) = false <-> Py.getitem k d = None.
Proof.
  induction d as [|[k' v'] d IH]; simpl.
  - split; reflexivity.
  - destruct (String.eqb k k'); simpl.
    + split; discriminate.
    + exact IH.
Qed.

Lemma getitem_In k d v : Py.getitem k d = Some v -> In (k, v) d.
Proof.
  induction d as [|[k' v'] d IH]; simpl; [discriminate|].
  destruct (String.eqb_spec k k') as [->|Hne].
  - intros [= ->]. now left.
  - intros H. right. auto.
Qed.

Lemma In_getitem k d v :
  NoDup (Py.keys d) -> In (k, v) d -> Py.getitem k d = Some v.
Proof.
  induction d as [|[k' v'] d IH]; simpl; [tauto|].
  intros Hnd [Heq|Hin]; inversion Hnd as [|? ? Hnotin Hnd']; subst.
  - injection Heq as -> ->. now rewrite String.eqb_refl.
  - destruct (String.eqb_spec k k') as [->|Hne]; [|auto].
    exfalso. apply Hnotin. change k' with (fst (k', v)).
    now apply in_map.
Qed.

Lemma getitem_app k d d' :
  Py.getitem k (d ++ d') =
  match Py.getitem k d with Some v => Some v | None => Py.getitem k d' end.
Proof.
  induction d as [|[k' v'] d IH]; simpl; [reflexivity|].
  now destruct (String.eqb k k').
Qed.

Lemma setitem_fresh k v d :
  Py.getitem k d = None -> Py.setitem k v d = d ++ [(k, v)].
Proof.
  induction d as [|[k' v'] d IH]; simpl; [reflexivity|].
  destruct (String.eqb k k'); [discriminate|].
  intros H. now rewrite IH.
Qed.

Lemma getitem_setitem_same k v d : Py.getitem k (Py.setitem k v d) = Some v.
Proof.
  induction d as [|[k' v'] d IH]; simpl.
  - now rewrite String.eqb_refl.
  - destruct (String.eqb_spec k k') as [->|Hne]; simpl.
    + now rewrite String.eqb_refl.
    + apply String.eqb_neq in Hne. now rewrite Hne.
Qed.

Lemma keys_mutate k f d : Py.keys (Py.mutate k f d) = Py.keys d.
Proof.
  induction d as [|[k' v'] d IH]; simpl; [reflexivity|].
  destruct (String.eqb k k'); simpl; [reflexivity|].
  now rewrite IH.
Qed.

Lemma getitem_mutate_same k f d v :
  Py.getitem k d = Some v -> Py.getitem k (Py.mutate k f d) = Some (f v).
Proof.
  induction d as [|[k' v'] d IH]; simpl; [discriminate|].
  destruct (String.eqb k k') eqn:E; simpl; rewrite E.
  - now intros [= ->].
  - exact IH.
Qed.

Lemma getitem_mutate_other k k' f d :
  k' <> k -> Py.getitem k' (Py.mutate k f d) = Py.getitem k' d.
Proof.
  intros Hne.
  induction d as [|[k0 v0] d IH]; simpl; [reflexivity|].
  destruct (String.eqb_spec k k0) as [->|Hk]; simpl.
  - apply String.eqb_neq in Hne. now rewrite Hne.
  - now rewrite IH.
Qed.

Lemma mutate_mutate k f g d :
  Py.mutate k g (Py.mutate k f d) = Py.mutate k (fun v => g (f v)) d.
Proof.
  induction d as [|[k' v'] d IH]; simpl; [reflexivity|].
  destruct (String.eqb k k') eqn:E; simpl; rewrite E; [reflexivity|].
  now rewrite IH.
Qed.

Lemma mutate_agree k f g d v :
  Py.getitem k d = Some v -> f v = g v -> Py.mutate k f d = Py.mutate k g d.
Proof.
  induction d as [|[k' v'] d IH]; simpl; [reflexivity|].
  destruct (String.eqb k k').
  - intros [= ->] ->. reflexivity.
  - intros H1 H2. now rewrite IH.
Qed.

Lemma length_mutate k f d : length (Py.mutate k f d) = length d.
Proof.
  rewrite <- (length_map fst (Py.mutate k f d)), <- (length_map fst d).
  change (length (Py.keys (Py.mutate k f d)) = length (Py.keys d)).
  now rewrite keys_mutate.
Qed.
End DictFacts.
Arguments contains_getitem {V} k d.
Arguments not_contains_getitem {V} k d.
Arguments getitem_In {V} k d v.
Arguments In_getitem {V} k d v.
Arguments getitem_app {V} k d d'.
Arguments setitem_fresh {V} k v d.
Arguments getitem_setitem_same {V} k v d.
Arguments keys_mutate {V} k f d.
Arguments getitem_mutate_same {V} k f d v.
Arguments getitem_mutate_other {V} k k' f d.
Arguments mutate_mutate {V} k f g d.
Arguments mutate_agree {V} k f g d v.
Arguments length_mutate {V} k f d.

(** ** create_sweep *)

Lemma create_sweep_fresh config self study :
  Py.getitem (SweepConfig.sweep_id config) (sweeps self) = None ->
  create_study (SweepConfig.direction config) = Py.Ok study ->
  Py.has_char "." (SweepConfig.sweep_id config) = false ->
  create_sweep config self =
  Py.Ok (msg_launched (SweepConfig.sweep_id config),
         {| sweeps :=
              sweeps self ++
              [(SweepConfig.sweep_id config,
                {| addr := allocated self;
                   obj := new_Sweep self config study |})];
            drive := drive self;
            allocated := S (allocated self) |}).
Proof.
  intros Hnone Hstudy Hdot. unfold create_sweep.
  apply not_contains_getitem in Hnone as Hc. rewrite Hc. simpl.
  unfold construct_Sweep. rewrite Hstudy. simpl.
  unfold Dict_setitem. rewrite Hdot. simpl.
  unfold with_sweeps. simpl. now rewrite setitem_fresh.
Qed.

(** A new sweep id with a direction optuna does not know: line 58 raises,
    before any Sweep is constructed. *)
Lemma create_sweep_bad_direction config self e :
  Py.getitem (SweepConfig.sweep_id config) (sweeps self) = None ->
  create_study (SweepConfig.direction config) = Py.Raise e ->
  create_sweep config self = Py.Raise e /\ after_raise config self = self.
Proof.
  intros Hnone Hstudy. unfold create_sweep, after_raise.
  apply not_contains_getitem in Hnone as Hc. rewrite Hc. simpl.
  unfold construct_Sweep. rewrite Hstudy. simpl. auto.
Qed.

(** A new sweep id with a dot: the Sweep is constructed, the assignment
    raises, nothing is stored. *)
Lemma create_sweep_dotted config self study :
  Py.getitem (SweepConfig.sweep_id config) (sweeps self) = None ->
  create_study (SweepConfig.direction config) = Py.Ok study ->
  Py.has_char "." (SweepConfig.sweep_id config) = true ->
  create_sweep config self = Py.Raise Py.Exception
  /\ after_raise config self =
     {| sweeps := sweeps self; drive := drive self;
        allocated := S (allocated self) |}.
Proof.
  intros Hnone Hstudy Hdot. unfold create_sweep, after_raise.
  apply not_contains_getitem in Hnone as Hc. rewrite Hc. simpl.
  unfold construct_Sweep. rewrite Hstudy. simpl.
  unfold Dict_setitem. rewrite Hdot. simpl. auto.
Qed.

Lemma create_sweep_failed config self o :
  Py.getitem (SweepConfig.sweep_id config) (sweeps self) = Some o ->
  Sweep.has_failed (obj o) = true ->
  create_sweep config self =
  Py.Ok (msg_updated (SweepConfig.sweep_id config),
         with_sweeps
           (Py.mutate (SweepConfig.sweep_id config) (on_obj restarted)
              (sweeps self)) self).
Proof.
  intros Hget Hfail. unfold create_sweep.
  assert (Hc : Py.list_contains (SweepConfig.sweep_id config)
                 (Py.keys (sweeps self)) = true)
    by (apply contains_getitem; eauto).
  rewrite Hc. simpl. unfold sweeps_at at 1. rewrite Hget. simpl.
  rewrite Hfail. unfold sweeps_at at 1. rewrite Hget. simpl.
  unfold sweeps_at. simpl.
  rewrite (getitem_mutate_same _ _ _ _ Hget). simpl.
  rewrite mutate_mutate. unfold with_sweeps. simpl.
  now rewrite (mutate_agree _ _ (on_obj restarted) _ _ Hget).
Qed.

Lemma create_sweep_live config self o :
  Py.getitem (SweepConfig.sweep_id config) (sweeps self) = Some o ->
  Sweep.has_failed (obj o) = false ->
  create_sweep config self =
  Py.Ok (msg_running (SweepConfig.sweep_id config), self).
Proof.
  intros Hget Hfail. unfold create_sweep.
  assert (Hc : Py.list_contains (SweepConfig.sweep_id config)
                 (Py.keys (sweeps self)) = true)
    by (apply contains_getitem; eauto).
  rewrite Hc. simpl. unfold sweeps_at. rewrite Hget. simpl.
  now rewrite Hfail.
Qed.

(** Every way a call of [create_sweep] can go. *)
Lemma create_sweep_cases config self :
  (exists o,
     Py.getitem (SweepConfig.sweep_id config) (sweeps self) = Some o
     /\ Sweep.has_failed (obj o) = true
     /\ outcome config self = Restarted
     /\ create_sweep config self =
        Py.Ok (msg_updated (SweepConfig.sweep_id config),
               with_sweeps
                 (Py.mutate (SweepConfig.sweep_id config) (on_obj restarted)
                    (sweeps self)) self))
  \/ (exists o,
        Py.getitem (SweepConfig.sweep_id config) (sweeps self) = Some o
        /\ Sweep.has_failed (obj o) = false
        /\ outcome config self = Rejected
        /\ create_sweep config self =
           Py.Ok (msg_running (SweepConfig.sweep_id config), self))
  \/ (exists study,
        Py.getitem (SweepConfig.sweep_id config) (sweeps self) = None
        /\ create_study (SweepConfig.direction config) = Py.Ok study
        /\ launchable config = true
        /\ outcome config self = Launched
        /\ create_sweep config self =
           Py.Ok (msg_launched (SweepConfig.sweep_id config),
                  {| sweeps :=
                       sweeps self ++
                       [(SweepConfig.sweep_id config,
                         {| addr := allocated self;
                            obj := new_Sweep self config study |})];
                     drive := drive self;
                     allocated := S (allocated self) |}))
  \/ (Py.getitem (SweepConfig.sweep_id config) (sweeps self) = None
      /\ launchable config = false
      /\ (exists e, create_sweep config self = Py.Raise e)
      /\ sweeps (after_raise config self) = sweeps self
      /\ drive (after_raise config self) = drive self
      /\ (allocated self <= allocated (after_raise config self))%nat).
Proof.
  unfold outcome, launchable.
  destruct (Py.getitem (SweepConfig.sweep_id config) (sweeps self))
    as [o|] eqn:Hget.
  - destruct (Sweep.has_failed (obj o)) eqn:Hf.
    + left. exists o. rewrite (create_sweep_failed _ _ _ Hget Hf). auto.
    + right. left. exists o. rewrite (create_sweep_live _ _ _ Hget Hf). auto.
  - right. right.
    destruct (create_study (SweepConfig.direction config)) as [study|e]
      eqn:Hstudy.
    + destruct (Py.has_char "." (SweepConfig.sweep_id config)) eqn:Hdot.
      * right.
        destruct (create_sweep_dotted _ _ _ Hget Hstudy Hdot) as [-> ->].
        simpl. repeat split; eauto.
      * left. exists study.
        rewrite (create_sweep_fresh _ _ _ Hget Hstudy Hdot). auto.
    + right.
      destruct (create_sweep_bad_direction _ _ _ Hget Hstudy) as [-> ->].
      repeat split; eauto.
Qed.

(** A call that returns, returns the status string of its branch. *)
Lemma create_sweep_ok_message config self msg self' :
  create_sweep config self = Py.Ok (msg, self') ->
  msg = message (outcome config self) (SweepConfig.sweep_id config).
Proof.
  intros Hok.
  destruct (create_sweep_cases config self)
    as [(o & _ & _ & -> & H)|[(o & _ & _ & -> & H)
        |[(study & _ & _ & _ & -> & H)|(_ & _ & [e H] & _)]]];
    rewrite H in Hok; try discriminate Hok; now injection Hok as <- _.
Qed.

(** What a create request does to the flow: the flow goes on, whatever the
    call did. *)
Lemma step_create_cases Sweep_run Sweep_get_trials config self :
  exists self',
    step Sweep_run Sweep_get_trials (OpCreate config) self = Py.Ok (self', [])
    /\ ((exists o,
           Py.getitem (SweepConfig.sweep_id config) (sweeps self) = Some o
           /\ Sweep.has_failed (obj o) = true
           /\ self' =
              with_sweeps
                (Py.mutate (SweepConfig.sweep_id config) (on_obj restarted)
                   (sweeps self)) self)
        \/ (exists o,
              Py.getitem (SweepConfig.sweep_id config) (sweeps self) = Some o
              /\ self' = self)
        \/ (exists study,
              Py.getitem (SweepConfig.sweep_id config) (sweeps self) = None
              /\ launchable config = true
              /\ self' =
                 {| sweeps :=
                      sweeps self ++
                      [(SweepConfig.sweep_id config,
                        {| addr := allocated self;
                           obj := new_Sweep self config study |})];
                    drive := drive self;
                    allocated := S (allocated self) |})
        \/ (Py.getitem (SweepConfig.sweep_id config) (sweeps self) = None
            /\ launchable config = false
            /\ sweeps self' = sweeps self
            /\ drive self' = drive self
            /\ (allocated self <= allocated self')%nat)).
Proof.
  unfold step.
  destruct (create_sweep_cases config self)
    as [(o & Hget & Hf & _ & ->)|[(o & Hget & Hf & _ & ->)
        |[(study & Hget & _ & Hl & _ & ->)|(Hget & Hl & [e ->] & H)]]];
    eexists; (split; [reflexivity|]); simpl; eauto 10.
Qed.

Lemma message_determines_outcome o1 o2 i j :
  message o1 i = message o2 j -> o1 = o2.
Proof.
  destruct o1, o2; simpl; unfold msg_launched, msg_updated, msg_running;
    simpl; intros H; try reflexivity; discriminate H.
Qed.

(** C1.  A create request whose sweep_id is already a key of [sweeps], the
    sweep under it not having failed, is answered with the rejection
    message and changes nothing: the Sweeper afterwards is the Sweeper
    before, so no Sweep object was constructed and the existing one was not
    touched. *)
Theorem create_sweep_rejects_live_sweep config self o :
  Py.getitem (SweepConfig.sweep_id config) (sweeps self) = Some o ->
  Sweep.has_failed (obj o) = false ->
  create_sweep config self =
  Py.Ok (msg_running (SweepConfig.sweep_id config), self).
Proof. apply create_sweep_live. Qed.

Lemma create_sweep_rejects_live_sweep_witness :
  create_sweep (cfg "bob-exp2" 7 2) two_sweeps =
  Py.Ok ("The current Sweep bob-exp2 is running. It couldn't be updated.",
         two_sweeps).
Proof.
  apply (create_sweep_rejects_live_sweep (cfg "bob-exp2" 7 2) two_sweeps
           {| addr := 1%nat;
              obj := new_Sweep Sweeper_init (cfg "bob-exp2" 3 3) maximize |});
    reflexivity.
Defined.

(** The scenario of the spec: creating "alice-exp1" twice while the first
    is still running gives the rejection message the second time, and one
    Sweep object only has been constructed. *)
Example create_twice_is_rejected :
  (r1 <- create_sweep (cfg "alice-exp1" 5 1) Sweeper_init ;;
   r2 <- create_sweep (cfg "alice-exp1" 5 1) (snd r1) ;;
   Py.Ok (fst r1, fst r2, allocated (snd r2), Py.keys (sweeps (snd r2))))
  = Py.Ok ("Launched a sweep alice-exp1",
           "The current Sweep alice-exp1 is running. It couldn't be updated.",
           1%nat, ["alice-exp1"]).
Proof. reflexivity. Qed.

(** C2.  A create request whose sweep_id is the key of a failed sweep
    restarts that sweep: the same object stays under the key, its
    restart_count is one more than before, its has_failed is false, no
    Sweep object is constructed, no entry is added, and the answer is the
    "Updated code" message. *)
Theorem create_sweep_restarts_failed_sweep config self o :
  Py.getitem (SweepConfig.sweep_id config) (sweeps self) = Some o ->
  Sweep.has_failed (obj o) = true ->
  exists self' o',
    create_sweep config self =
      Py.Ok (msg_updated (SweepConfig.sweep_id config), self')
    /\ Py.getitem (SweepConfig.sweep_id config) (sweeps self') = Some o'
    /\ addr o' = addr o
    /\ Sweep.restart_count (obj o') = Sweep.restart_count (obj o) + 1
    /\ Sweep.has_failed (obj o') = false
    /\ allocated self' = allocated self
    /\ Py.keys (sweeps self') = Py.keys (sweeps self).
Proof.
  intros Hget Hfail.
  eexists. exists (on_obj restarted o).
  split; [apply (create_sweep_failed _ _ _ Hget Hfail)|].
  simpl. split; [now apply getitem_mutate_same|].
  repeat split. apply keys_mutate.
Qed.

(** The scenario of the spec: has_failed=True and restart_count=0 before,
    has_failed=False and restart_count=1 after. *)
Lemma create_sweep_restarts_failed_sweep_witness :
  Sweep.has_failed failed_sweep = true /\
  Sweep.restart_count failed_sweep = 0 /\
  exists self' o',
    create_sweep (cfg "alice-exp1" 5 1) two_sweeps =
      Py.Ok ("Updated code for Sweep alice-exp1.", self')
    /\ Py.getitem "alice-exp1" (sweeps self') = Some o'
    /\ addr o' = 0%nat
    /\ Sweep.restart_count (obj o') = 0 + 1
    /\ Sweep.has_failed (obj o') = false
    /\ allocated self' = 2%nat
    /\ Py.keys (sweeps self') = ["alice-exp1"; "bob-exp2"].
Proof.
  split; [reflexivity|]. split; [reflexivity|].
  apply (create_sweep_restarts_failed_sweep (cfg "alice-exp1" 5 1) two_sweeps
           {| addr := 0%nat; obj := failed_sweep |});
    reflexivity.
Defined.

(** C4.  The restart touches nothing but restart_count and has_failed of
    the sweep it restarts: every other attribute of that sweep, its trials
    among them, is as before; every other key holds what it held; the
    Sweeper's own fields are as before. *)
Theorem create_sweep_restart_frame config self o :
  Py.getitem (SweepConfig.sweep_id config) (sweeps self) = Some o ->
  Sweep.has_failed (obj o) = true ->
  exists msg self' o',
    create_sweep config self = Py.Ok (msg, self')
    /\ Py.getitem (SweepConfig.sweep_id config) (sweeps self') = Some o'
    /\ addr o' = addr o
    /\ Sweep.trials (obj o') = Sweep.trials (obj o)
    /\ Sweep.distributions (obj o') = Sweep.distributions (obj o)
    /\ Sweep.algorithm (obj o') = Sweep.algorithm (obj o)
    /\ Sweep.n_trials (obj o') = Sweep.n_trials (obj o)
    /\ Sweep.simultaneous_trials (obj o') = Sweep.simultaneous_trials (obj o)
    /\ Sweep.script_path (obj o') = Sweep.script_path (obj o)
    /\ Sweep.framework (obj o') = Sweep.framework (obj o)
    /\ Sweep.script_args (obj o') = Sweep.script_args (obj o)
    /\ Sweep.cloud_compute (obj o') = Sweep.cloud_compute (obj o)
    /\ Sweep.sweep_id (obj o') = Sweep.sweep_id (obj o)
    /\ Sweep.code (obj o') = Sweep.code (obj o)
    /\ Sweep.cloud_build_config (obj o') = Sweep.cloud_build_config (obj o)
    /\ Sweep.logger (obj o') = Sweep.logger (obj o)
    /\ (forall k, k <> SweepConfig.sweep_id config ->
          Py.getitem k (sweeps self') = Py.getitem k (sweeps self))
    /\ Py.keys (sweeps self') = Py.keys (sweeps self)
    /\ drive self' = drive self
    /\ allocated self' = allocated self.
Proof.
  intros Hget Hfail.
  eexists. eexists. exists (on_obj restarted o).
  split; [apply (create_sweep_failed _ _ _ Hget Hfail)|].
  simpl. split; [now apply getitem_mutate_same|].
  repeat split.
  - intros k Hk. now apply getitem_mutate_other.
  - apply keys_mutate.
Qed.

Lemma create_sweep_restart_frame_witness :
  exists msg self' o',
    create_sweep (cfg "alice-exp1" 9 4) two_sweeps = Py.Ok (msg, self')
    /\ Py.getitem "alice-exp1" (sweeps self') = Some o'
    /\ Sweep.trials (obj o') = Sweep.trials failed_sweep
    /\ Sweep.n_trials (obj o') = 5
    /\ Py.getitem "bob-exp2" (sweeps self') = Py.getitem "bob-exp2" (sweeps two_sweeps).
Proof.
  destruct (create_sweep_restart_frame (cfg "alice-exp1" 9 4) two_sweeps
              {| addr := 0%nat; obj := failed_sweep |}
              eq_refl eq_refl)
    as (msg & self' & o' & H).
  exists msg, self', o'.
  decompose [and] H. repeat split; try assumption.
  match goal with Hf : forall k, _ -> _ |- _ => apply Hf end.
  discriminate.
Defined.



(** ** run *)

Section RunFacts.
Variable Sweep_run : Env -> Sweep.t -> Sweep.t.
Variable Sweep_get_trials : Sweep.t -> list Trial.t * Sweep.t.

Local Abbreviation run_loop := (run_loop Sweep_run Sweep_get_trials).
Local Abbreviation run := (run Sweep_run Sweep_get_trials).
Local Abbreviation step := (step Sweep_run Sweep_get_trials).
Local Abbreviation exec := (exec Sweep_run Sweep_get_trials).
Local Abbreviation tick_obj := (tick_obj Sweep_run Sweep_get_trials).
Local Abbreviation collected := (collected Sweep_run Sweep_get_trials).

Lemma run_loop_eq e entries acc :
  run_loop e entries acc =
  (map (fun kv => (fst kv, tick_obj e (snd kv))) entries,
   acc ++ flat_map (fun kv => collected e (snd kv)) entries,
   map (fun kv => EvSweepRun (addr (snd kv))) entries).
Proof.
  revert acc.
  induction entries as [|[k o] rest IH]; intros acc; simpl.
  - now rewrite app_nil_r.
  - unfold tick_obj, collected at 1.
    destruct (Sweep_get_trials (Sweep_run e (obj o))) as [ts s2]; simpl.
    rewrite IH. now rewrite <- app_assoc.
Qed.

Lemma sweep_runs_app evs1 evs2 :
  sweep_runs (evs1 ++ evs2) = sweep_runs evs1 ++ sweep_runs evs2.
Proof. apply flat_map_app. Qed.

Lemma posts_app evs1 evs2 : posts (evs1 ++ evs2) = posts evs1 ++ posts evs2.
Proof. apply flat_map_app. Qed.

Lemma sweep_runs_post_loop e trials : sweep_runs (post_loop e trials) = [].
Proof. induction trials; simpl; auto. Qed.

Lemma posts_post_loop e trials : posts (post_loop e trials) = trials.
Proof. induction trials; simpl; [reflexivity|]. now f_equal. Qed.

Lemma sweep_runs_of_loop (entries : Py.dict SweepObj) :
  sweep_runs (map (fun kv => EvSweepRun (addr (snd kv))) entries) =
  map addr (Py.values entries).
Proof. induction entries as [|[k o] rest IH]; simpl; [reflexivity|]. now f_equal. Qed.

Lemma posts_of_loop (entries : Py.dict SweepObj) :
  posts (map (fun kv => EvSweepRun (addr (snd kv))) entries) = [].
Proof. induction entries as [|[k o] rest IH]; simpl; auto. Qed.

(** The tick when both collaborators are alive. *)
Lemma run_alive e self :
  file_server_alive e = true -> db_alive e = true ->
  fst (run e self) =
    with_sweeps (map (fun kv => (fst kv, tick_obj e (snd kv))) (sweeps self)) self
  /\ sweep_runs (snd (run e self)) = map addr (Py.values (sweeps self))
  /\ posts (snd (run e self)) =
       flat_map (fun kv => collected e (snd kv)) (sweeps self).
Proof.
  intros Hfs Hdb. unfold run. rewrite Hfs, Hdb. cbn [andb].
  rewrite run_loop_eq. rewrite app_nil_l.
  destruct (flat_map (fun kv => collected e (snd kv)) (sweeps self))
    as [|t ts] eqn:Hts; cbn [fst snd].
  - split; [reflexivity|].
    rewrite sweep_runs_app, posts_app, sweep_runs_of_loop, posts_of_loop.
    now split.
  - split; [reflexivity|].
    rewrite !sweep_runs_app, !posts_app, sweep_runs_of_loop, posts_of_loop,
      sweep_runs_post_loop, posts_post_loop.
    simpl. now rewrite app_nil_r.
Qed.

Lemma run_not_alive e self :
  file_server_alive e && db_alive e = false ->
  run e self = (self, [EvFileServerRun; EvDbRun; EvDbVizRun]).
Proof. intros H. unfold run. now rewrite H. Qed.

Lemma keys_tick e (d : Py.dict SweepObj) :
  Py.keys (map (fun kv => (fst kv, tick_obj e (snd kv))) d) = Py.keys d.
Proof. unfold Py.keys. rewrite map_map. reflexivity. Qed.

Lemma getitem_tick e k (d : Py.dict SweepObj) :
  Py.getitem k (map (fun kv => (fst kv, tick_obj e (snd kv))) d) =
  option_map (tick_obj e) (Py.getitem k d).
Proof.
  induction d as [|[k' o] d IH]; simpl; [reflexivity|].
  now destruct (String.eqb k k').
Qed.

(** What one tick does to the mapping, alive or not: same keys, same
    objects. *)
Lemma run_keeps_entries e self :
  Py.keys (sweeps (fst (run e self))) = Py.keys (sweeps self)
  /\ allocated (fst (run e self)) = allocated self
  /\ forall k o, Py.getitem k (sweeps self) = Some o ->
       exists o', Py.getitem k (sweeps (fst (run e self))) = Some o'
                  /\ addr o' = addr o.
Proof.
  destruct (file_server_alive e && db_alive e) eqn:Halive.
  - apply andb_true_iff in Halive as [Hfs Hdb].
    destruct (run_alive e self Hfs Hdb) as (-> & _ & _). simpl.
    split; [apply keys_tick|]. split; [reflexivity|].
    intros k o Hget. rewrite getitem_tick, Hget. simpl. eauto.
  - rewrite (run_not_alive _ _ Halive). simpl. eauto.
Qed.

(** What one create request does to the mapping, raising or not: the keys
    stay, or one fresh key is appended; what was there stays the same
    object. *)
Lemma create_sweep_keeps_entries config self :
  exists self',
    step (OpCreate config) self = Py.Ok (self', [])
    /\ (Py.keys (sweeps self') = Py.keys (sweeps self)
        \/ (Py.getitem (SweepConfig.sweep_id config) (sweeps self) = None
            /\ Py.keys (sweeps self') =
               Py.keys (sweeps self) ++ [SweepConfig.sweep_id config]))
    /\ forall k o, Py.getitem k (sweeps self) = Some o ->
         exists o', Py.getitem k (sweeps self') = Some o'
                    /\ addr o' = addr o.
Proof.
  destruct (step_create_cases Sweep_run Sweep_get_trials config self)
    as (self' & Hstep & Hcases).
  exists self'. split; [exact Hstep|]. clear Hstep.
  destruct Hcases as [(o0 & Hget & Hf & ->)|[(o0 & Hget & ->)
        |[(study & Hget & Hl & ->)|(Hget & Hl & Hs & _)]]]; simpl.
  - split; [left; apply keys_mutate|].
    intros k o Hk.
    destruct (String.eqb_spec k (SweepConfig.sweep_id config)) as [->|Hne].
    + rewrite (getitem_mutate_same _ _ _ _ Hk). eauto.
    + rewrite getitem_mutate_other by assumption. eauto.
  - split; [now left|]. eauto.
  - split.
    + right. split; [assumption|]. unfold Py.keys. now rewrite map_app.
    + intros k o Hk. rewrite getitem_app, Hk. eauto.
  - rewrite Hs. split; [now left|]. eauto.
Qed.

Lemma step_keeps_entries op self :
  exists self' evs,
    step op self = Py.Ok (self', evs)
    /\ (exists more,
          Py.keys (sweeps self') = Py.keys (sweeps self) ++ more
          /\ forall k, In k more ->
               In k (created_ids [op]) /\ Py.getitem k (sweeps self) = None)
    /\ forall k o, Py.getitem k (sweeps self) = Some o ->
         exists o', Py.getitem k (sweeps self') = Some o'
                    /\ addr o' = addr o.
Proof.
  destruct op as [config|e].
  - destruct (create_sweep_keeps_entries config self)
      as (self' & Hstep & Hkeys & Hobj).
    do 2 eexists. split; [exact Hstep|]. split; [|exact Hobj]. simpl.
    destruct Hkeys as [->|[Hfresh ->]].
    + exists []. rewrite app_nil_r. split; [reflexivity|]. intros k [].
    + eexists. split; [reflexivity|].
      intros k [<-|[]]. split; [now left|assumption].
  - exists (fst (run e self)), (snd (run e self)).
    split; [simpl; now destruct (run e self)|].
    destruct (run_keeps_entries e self) as (-> & _ & Hobj).
    split; [|exact Hobj].
    exists []. rewrite app_nil_r. split; [reflexivity|]. intros k [].
Qed.

Lemma created_ids_cons op ops :
  created_ids (op :: ops) = created_ids [op] ++ created_ids ops.
Proof. unfold created_ids. simpl. now rewrite app_nil_r. Qed.

Lemma exec_keeps_entries ops : forall self,
  exists self' evs,
    exec ops self = Py.Ok (self', evs)
    /\ (exists more,
          Py.keys (sweeps self') = Py.keys (sweeps self) ++ more
          /\ forall k, In k more ->
               In k (created_ids ops) /\ Py.getitem k (sweeps self) = None)
    /\ forall k o, Py.getitem k (sweeps self) = Some o ->
         exists o', Py.getitem k (sweeps self') = Some o'
                    /\ addr o' = addr o.
Proof.
  induction ops as [|op ops IH]; intros self.
  - simpl. do 2 eexists. split; [reflexivity|]. split; [|eauto].
    exists []. rewrite app_nil_r. split; [reflexivity|]. intros k [].
  - rewrite created_ids_cons. cbn [exec].
    destruct (step_keeps_entries op self)
      as (self1 & evs1 & -> & (more1 & Hk1 & Hm1) & Ho1). cbn [Py.bind fst snd].
    destruct (IH self1) as (self2 & evs2 & -> & (more2 & Hk2 & Hm2) & Ho2).
    cbn [Py.bind fst snd].
    do 2 eexists. split; [reflexivity|]. split.
    + exists (more1 ++ more2). split; [now rewrite Hk2, Hk1, app_assoc|].
      intros k Hin. apply in_app_or in Hin as [Hin|Hin].
      * destruct (Hm1 _ Hin) as [Hc Hn]. split; [|assumption].
        apply in_or_app. now left.
      * destruct (Hm2 _ Hin) as [Hc Hn]. split; [apply in_or_app; now right|].
        destruct (Py.getitem k (sweeps self)) as [o|] eqn:Hget; [|reflexivity].
        destruct (Ho1 _ _ Hget) as (o1 & Hget1 & _). congruence.
    + intros k o Hget.
      destruct (Ho1 _ _ Hget) as (o1 & Hget1 & Ha1).
      destruct (Ho2 _ _ Hget1) as (o2 & Hget2 & Ha2).
      exists o2. split; [assumption|congruence].
Qed.

Lemma addr_tick e (d : Py.dict SweepObj) :
  map addr (Py.values (map (fun kv => (fst kv, tick_obj e (snd kv))) d)) =
  map addr (Py.values d).
Proof. unfold Py.values. rewrite !map_map. reflexivity. Qed.

Lemma addr_mutate k f (d : Py.dict SweepObj) :
  map addr (Py.values (Py.mutate k (on_obj f) d)) = map addr (Py.values d).
Proof.
  induction d as [|[k' o] d IH]; simpl; [reflexivity|].
  destruct (String.eqb k k'); simpl; [reflexivity|]. now rewrite IH.
Qed.

Lemma addr_bound (d : Py.dict SweepObj) n :
  Forall (fun o => (addr o < n)%nat) (Py.values d) <->
  Forall (fun a => (a < n)%nat) (map addr (Py.values d)).
Proof. symmetry. apply Forall_map. Qed.

(** Along a history the addresses keep naming objects. *)
Lemma step_well_addressed op self self' evs :
  well_addressed self -> step op self = Py.Ok (self', evs) ->
  well_addressed self'.
Proof.
  intros [Hnd Hlt]. destruct op as [config|e].
  - destruct (step_create_cases Sweep_run Sweep_get_trials config self)
      as (self1 & Hstep & Hcases).
    rewrite Hstep. intros [= <- <-]. clear Hstep.
    destruct Hcases as [(o0 & Hget & Hf & ->)|[(o0 & Hget & ->)
        |[(study & Hget & Hl & ->)|(Hget & Hl & Hs & _ & Hal)]]].
    + split; simpl; [now rewrite addr_mutate|].
      apply addr_bound. rewrite addr_mutate. now apply addr_bound.
    + now split.
    + unfold well_addressed, Py.values. simpl. rewrite !map_app. simpl.
      rewrite Forall_forall in Hlt. split.
      * apply NoDup_app; [assumption|repeat constructor; simpl; tauto|].
        intros a Hin [<-|[]].
        apply in_map_iff in Hin as (o & Hao & Hin).
        specialize (Hlt _ Hin). lia.
      * apply Forall_app. split; [|repeat constructor].
        apply Forall_forall. intros o Hin. specialize (Hlt _ Hin). lia.
    + unfold well_addressed. rewrite Hs. split; [assumption|].
      eapply Forall_impl; [|exact Hlt]. simpl. intros o Ho. lia.
  - simpl. intros [= Hrun].
    replace self' with (fst (run e self)) by (now rewrite Hrun). clear Hrun.
    destruct (file_server_alive e && db_alive e) eqn:Halive.
    + apply andb_true_iff in Halive as [Hfs Hdb].
      destruct (run_alive e self Hfs Hdb) as (-> & _ & _).
      split; simpl; [now rewrite addr_tick|].
      apply addr_bound. rewrite addr_tick. now apply addr_bound.
    + rewrite (run_not_alive _ _ Halive). now split.
Qed.

Lemma exec_well_addressed ops : forall self self' evs,
  well_addressed self -> exec ops self = Py.Ok (self', evs) ->
  well_addressed self'.
Proof.
  induction ops as [|op ops IH]; intros self self' evs Hwa; simpl.
  - now intros [= <- <-].
  - destruct (step op self) as [[self1 evs1]|] eqn:Hstep; [|discriminate].
    simpl.
    destruct (exec ops self1) as [[self2 evs2]|] eqn:Hex; [|discriminate].
    simpl. intros [= <- <-].
    eapply IH; [|exact Hex]. eapply step_well_addressed; eassumption.
Qed.

(** C7 (as amended).  On a tick on which the file server and the database
    both report alive, [run] is called on every Sweep object of the
    mapping, once each, in the order of the mapping; and every entry of
    the mapping afterwards holds the object it held, ticked. *)
Theorem run_ticks_every_sweep_when_alive e self :
  file_server_alive e = true -> db_alive e = true ->
  sweep_runs (snd (run e self)) = map addr (Py.values (sweeps self))
  /\ sweeps (fst (run e self)) =
     map (fun kv => (fst kv, tick_obj e (snd kv))) (sweeps self).
Proof.
  intros Hfs Hdb.
  destruct (run_alive e self Hfs Hdb) as (Hst & Hruns & _).
  split; [assumption|]. now rewrite Hst.
Qed.

(** C9.  On a tick on which the file server or the database does not
    report alive, no Sweep is ticked and no record is posted: the
    Sweeper is left as it was and the only effects are the three calls
    that start the works. *)
Theorem run_gated_by_collaborators e self :
  file_server_alive e = false \/ db_alive e = false ->
  fst (run e self) = self
  /\ sweep_runs (snd (run e self)) = []
  /\ posts (snd (run e self)) = []
  /\ snd (run e self) = [EvFileServerRun; EvDbRun; EvDbVizRun].
Proof.
  intros H.
  assert (Hdead : file_server_alive e && db_alive e = false).
  { destruct H as [-> | ->]; [reflexivity | apply andb_false_r]. }
  rewrite (run_not_alive _ _ Hdead). simpl. auto.
Qed.

(** Sweeps are ticked or records posted only if both are alive. *)
Corollary run_effects_need_both_alive e self :
  sweep_runs (snd (run e self)) <> [] \/ posts (snd (run e self)) <> [] ->
  file_server_alive e = true /\ db_alive e = true.
Proof.
  intros H.
  destruct (file_server_alive e) eqn:Hfs; destruct (db_alive e) eqn:Hdb;
    try (split; reflexivity); exfalso.
  all: rewrite run_not_alive in H by (rewrite Hfs, Hdb; reflexivity).
  all: destruct H as [H|H]; now apply H.
Qed.

(** C8.  Along any history of create requests and ticks, the history
    runs to its end, a key of the mapping stays a key, and it keeps
    holding the object it held (same address).  The keys afterwards are
    the keys before followed by new ones, each of them the sweep_id of a
    create request of the history and not a key before. *)
Theorem sweeps_never_shrink ops self k o :
  Py.getitem k (sweeps self) = Some o ->
  exists self' evs o',
    exec ops self = Py.Ok (self', evs)
    /\ Py.getitem k (sweeps self') = Some o'
    /\ addr o' = addr o
    /\ exists more,
         Py.keys (sweeps self') = Py.keys (sweeps self) ++ more
         /\ forall k', In k' more ->
              In k' (created_ids ops) /\ Py.getitem k' (sweeps self) = None.
Proof.
  intros Hget.
  destruct (exec_keeps_entries ops self) as (self' & evs & Hex & Hkeys & Hobj).
  destruct (Hobj _ _ Hget) as (o' & Hget' & Ha).
  exists self', evs, o'. auto.
Qed.
End RunFacts.

(** With the file server down, bob's sweep is not ticked. *)
Lemma run_skips_sweeps_when_not_alive :
  Py.getitem "bob-exp2" (sweeps two_sweeps)
    = Some {| addr := 1%nat; obj := new_Sweep Sweeper_init (cfg "bob-exp2" 3 3) maximize |}
  /\ ~ In 1%nat
       (sweep_runs
          (snd (run Sweep_run_scheduler Sweep_get_trials (env false true)
                  two_sweeps))).
Proof. split; [reflexivity|]. simpl. tauto. Qed.

Lemma run_ticks_every_sweep_when_alive_witness :
  sweep_runs
    (snd (run Sweep_run_scheduler Sweep_get_trials (env true true) two_sweeps))
  = [0%nat; 1%nat].
Proof.
  apply (proj1 (run_ticks_every_sweep_when_alive Sweep_run_scheduler
                  Sweep_get_trials (env true true) two_sweeps
                  eq_refl eq_refl)).
Defined.

Lemma run_gated_by_collaborators_witness :
  fst (run Sweep_run_scheduler Sweep_get_trials (env true false) two_sweeps)
    = two_sweeps
  /\ posts
       (snd (run Sweep_run_scheduler Sweep_get_trials (env true false)
               two_sweeps)) = [].
Proof.
  destruct (run_gated_by_collaborators Sweep_run_scheduler Sweep_get_trials
              (env true false) two_sweeps (or_intror eq_refl))
    as (H1 & _ & H2 & _).
  split; assumption.
Defined.

Lemma sweeps_never_shrink_witness :
  exists self' evs o',
    exec Sweep_run_scheduler Sweep_get_trials
      (OpCreate (cfg "alice-exp1" 5 1) :: OpCreate (cfg "carol-exp3" 1 1)
       :: history) two_sweeps = Py.Ok (self', evs)
    /\ Py.getitem "alice-exp1" (sweeps self') = Some o'
    /\ addr o' = 0%nat
    /\ exists more,
         Py.keys (sweeps self') = ["alice-exp1"; "bob-exp2"] ++ more
         /\ forall k', In k' more ->
              In k' ["alice-exp1"; "carol-exp3"; "alice-exp1"]
              /\ Py.getitem k' (sweeps two_sweeps) = None.
Proof.
  apply (sweeps_never_shrink Sweep_run_scheduler Sweep_get_trials
           (OpCreate (cfg "alice-exp1" 5 1) :: OpCreate (cfg "carol-exp3" 1 1)
            :: history)
           two_sweeps "alice-exp1" {| addr := 0%nat; obj := failed_sweep |}).
  reflexivity.
Defined.

(** ** Forwarding of terminal trials *)

Lemma count_posts_app k tid evs1 evs2 :
  count_posts k tid (evs1 ++ evs2) =
  (count_posts k tid evs1 + count_posts k tid evs2)%nat.
Proof.
  unfold count_posts, posts. now rewrite flat_map_app, filter_app, length_app.
Qed.

Lemma forwarded_count_absent tid trials :
  ~ In tid (map TrialRun.trial_id trials) -> forwarded_count tid trials = O.
Proof.
  unfold forwarded_count.
  induction trials as [|r l IH]; simpl; [reflexivity|].
  intros Hnot.
  destruct (Z.eqb_spec (TrialRun.trial_id r) tid) as [Heq|Hne]; simpl.
  - exfalso. apply Hnot. now left.
  - apply IH. intros Hin. apply Hnot. now right.
Qed.

(** With pairwise different ids, at most one trial has a given id. *)
Lemma forwarded_count_unique tid trials :
  NoDup (map TrialRun.trial_id trials) ->
  forwarded_count tid trials =
  if existsb (fun r => Z.eqb (TrialRun.trial_id r) tid && TrialRun.forwarded r)
       trials
  then 1%nat else O.
Proof.
  induction trials as [|r l IH]; simpl; [reflexivity|].
  intros Hnd. inversion Hnd as [|? ? Hnotin Hnd']; subst.
  unfold forwarded_count in *. simpl.
  destruct (Z.eqb_spec (TrialRun.trial_id r) tid) as [Heq|Hne]; simpl.
  - destruct (TrialRun.forwarded r); simpl.
    + subst tid. f_equal. now apply forwarded_count_absent.
    + now apply IH.
  - now apply IH.
Qed.

Lemma same_id_same_trial (trials : list TrialRun.t) r1 r2 :
  NoDup (map TrialRun.trial_id trials) ->
  In r1 trials -> In r2 trials ->
  TrialRun.trial_id r1 = TrialRun.trial_id r2 -> r1 = r2.
Proof.
  induction trials as [|r l IH]; simpl; [tauto|].
  intros Hnd H1 H2 Heq. inversion Hnd as [|? ? Hnotin Hnd']; subst.
  destruct H1 as [->|H1], H2 as [->|H2]; auto.
  - exfalso. apply Hnotin. rewrite Heq. now apply in_map.
  - exfalso. apply Hnotin. rewrite <- Heq. now apply in_map.
Qed.

Lemma trial_id_hand_over r :
  TrialRun.trial_id (hand_over r) = TrialRun.trial_id r.
Proof. unfold hand_over. now destruct (newly_terminal r). Qed.

Lemma stage_hand_over r : TrialRun.stage (hand_over r) = TrialRun.stage r.
Proof. unfold hand_over. now destruct (newly_terminal r). Qed.

Lemma forwarded_hand_over r :
  TrialRun.forwarded (hand_over r) = TrialRun.forwarded r || newly_terminal r.
Proof.
  unfold hand_over. destruct (newly_terminal r) eqn:E; simpl.
  - now rewrite orb_true_r.
  - now rewrite orb_false_r.
Qed.

(** Handing over splits the count: what was handed over before, and what is
    handed over now. *)
Lemma forwarded_count_hand_over k s tid trials :
  Sweep.sweep_id s = k ->
  forwarded_count tid (map hand_over trials) =
  (forwarded_count tid trials
   + length (filter (is_record_of k tid)
               (map (record_of s) (filter newly_terminal trials))))%nat.
Proof.
  intros Hk. unfold forwarded_count.
  induction trials as [|r l IH]; simpl; [reflexivity|].
  rewrite trial_id_hand_over, forwarded_hand_over.
  destruct (newly_terminal r) eqn:Hnt; simpl.
  - assert (Hfw : TrialRun.forwarded r = false).
    { unfold newly_terminal in Hnt. apply andb_true_iff in Hnt as [_ Hn].
      now apply negb_true_iff in Hn. }
    rewrite Hfw. unfold is_record_of at 1. simpl.
    rewrite Hk, String.eqb_refl. simpl.
    destruct (Z.eqb (TrialRun.trial_id r) tid); simpl; rewrite IH; lia.
  - rewrite orb_false_r.
    destruct (Z.eqb (TrialRun.trial_id r) tid && TrialRun.forwarded r);
      simpl; rewrite IH; lia.
Qed.

Lemma records_of_other_sweep k s tid trials :
  Sweep.sweep_id s <> k ->
  filter (is_record_of k tid) (map (record_of s) trials) = [].
Proof.
  intros Hne. induction trials as [|r l IH]; simpl; [reflexivity|].
  unfold is_record_of at 1. simpl.
  apply String.eqb_neq in Hne. now rewrite Hne.
Qed.

Lemma getitem_absent {V : Type} k (d : Py.dict V) :
  ~ In k (Py.keys d) <-> Py.getitem k d = None.
Proof.
  rewrite <- not_contains_getitem. unfold Py.list_contains.
  split.
  - intros Hnot. destruct (existsb (String.eqb k) (Py.keys d)) eqn:E; [|reflexivity].
    apply existsb_exists in E as (x & Hin & Heq).
    apply String.eqb_eq in Heq. subst x. contradiction.
  - intros E Hin.
    assert (existsb (String.eqb k) (Py.keys d) = true); [|congruence].
    apply existsb_exists. exists k. split; [assumption|apply String.eqb_refl].
Qed.

Lemma Forall_mutate {V : Type} (P : string * V -> Prop) k f (d : Py.dict V) :
  Forall P d -> (forall k' v, P (k', v) -> P (k', f v)) ->
  Forall P (Py.mutate k f d).
Proof.
  intros Hall Hf.
  induction Hall as [|[k' v'] d Hp Hall IH]; simpl; [constructor|].
  destruct (String.eqb k k'); constructor; auto.
Qed.

Section Forwarding.
Variable Sweep_run : Env -> Sweep.t -> Sweep.t.
Hypothesis contract : Sweep_run_contract Sweep_run.

Local Abbreviation run := (run Sweep_run Sweep_get_trials).
Local Abbreviation step := (step Sweep_run Sweep_get_trials).
Local Abbreviation exec := (exec Sweep_run Sweep_get_trials).
Local Abbreviation tick_obj := (tick_obj Sweep_run Sweep_get_trials).
Local Abbreviation collected := (collected Sweep_run Sweep_get_trials).

(** A trial found handed over after [Sweep.run] is one of the trials
    that were handed over before. *)
Lemma run_forwarded_is_old e s r :
  settled s ->
  In r (Sweep.trials (Sweep_run e s)) -> TrialRun.forwarded r = true ->
  In r (Sweep.trials s).
Proof.
  intros [Hnd Hft] Hin Hfw.
  destruct (run_forwards_nothing _ contract e s r Hin Hfw)
    as (r0 & Hin0 & Hid & Hfw0).
  assert (Hterm : terminal (TrialRun.stage r0) = true)
    by (rewrite <- (Hft _ Hin0); exact Hfw0).
  pose proof (run_keeps_terminal _ contract e s r0 Hin0 Hterm) as Hin0'.
  pose proof (run_unique_ids _ contract e s Hnd) as Hnd'.
  now rewrite <- (same_id_same_trial _ _ _ Hnd' Hin0' Hin Hid).
Qed.

Lemma run_keeps_forwarded_count e s tid :
  settled s ->
  forwarded_count tid (Sweep.trials (Sweep_run e s)) =
  forwarded_count tid (Sweep.trials s).
Proof.
  intros Hs. pose proof Hs as [Hnd Hft].
  rewrite (forwarded_count_unique tid _ (run_unique_ids _ contract e s Hnd)).
  rewrite (forwarded_count_unique tid _ Hnd).
  set (p := fun r => Z.eqb (TrialRun.trial_id r) tid && TrialRun.forwarded r).
  destruct (existsb p (Sweep.trials (Sweep_run e s))) eqn:E1;
    destruct (existsb p (Sweep.trials s)) eqn:E0; try reflexivity; exfalso.
  - apply existsb_exists in E1 as (r & Hin & Hp).
    assert (existsb p (Sweep.trials s) = true); [|congruence].
    apply existsb_exists. exists r. split; [|assumption].
    apply andb_true_iff in Hp as [_ Hfw].
    now apply (run_forwarded_is_old e s).
  - apply existsb_exists in E0 as (r & Hin & Hp).
    assert (existsb p (Sweep.trials (Sweep_run e s)) = true); [|congruence].
    apply existsb_exists. exists r. split; [|assumption].
    apply andb_true_iff in Hp as [_ Hfw].
    apply (run_keeps_terminal _ contract); [assumption|].
    now rewrite <- (Hft _ Hin).
Qed.

(** One pass of the loop body over a settled sweep. *)
Lemma tick_settled e s k :
  Sweep.sweep_id s = k -> settled s ->
  Sweep.sweep_id (snd (Sweep_get_trials (Sweep_run e s))) = k
  /\ settled (snd (Sweep_get_trials (Sweep_run e s)))
  /\ forall tid,
       forwarded_count tid
         (Sweep.trials (snd (Sweep_get_trials (Sweep_run e s)))) =
       (forwarded_count tid (Sweep.trials s)
        + length (filter (is_record_of k tid)
                    (fst (Sweep_get_trials (Sweep_run e s)))))%nat.
Proof.
  intros Hk Hs. pose proof Hs as [Hnd Hft].
  assert (Hk1 : Sweep.sweep_id (Sweep_run e s) = k)
    by (now rewrite (run_keeps_sweep_id _ contract)).
  unfold Sweep_get_trials, settled. simpl.
  split; [assumption|]. split; [split|].
  - rewrite map_map.
    rewrite (map_ext _ TrialRun.trial_id trial_id_hand_over).
    now apply (run_unique_ids _ contract).
  - intros r2 Hin2. apply in_map_iff in Hin2 as (r1 & <- & Hin1).
    rewrite forwarded_hand_over, stage_hand_over.
    destruct (TrialRun.forwarded r1) eqn:Hfw; simpl.
    + rewrite <- (Hft r1); [now rewrite Hfw|].
      now apply (run_forwarded_is_old e s).
    + unfold newly_terminal. rewrite Hfw. simpl. apply andb_true_r.
  - intros tid.
    rewrite (forwarded_count_hand_over k (Sweep_run e s) tid _ Hk1).
    now rewrite run_keeps_forwarded_count.
Qed.

(** The records collected in one pass over the mapping that belong to
    sweep [k] are those the sweep stored under [k] handed out. *)
Lemma loop_posts e k tid (d : Py.dict SweepObj) :
  NoDup (Py.keys d) -> Forall entry_ok d ->
  length (filter (is_record_of k tid)
            (flat_map (fun kv => collected e (snd kv)) d)) =
  match Py.getitem k d with
  | Some o => length (filter (is_record_of k tid) (collected e o))
  | None => O
  end.
Proof.
  induction d as [|[k0 o0] d IH]; simpl; [reflexivity|].
  intros Hnd Hall.
  inversion Hnd as [|? ? Hnotin Hnd']; subst.
  inversion Hall as [|? ? [Hid _] Hall']; subst. simpl in Hid.
  rewrite filter_app, length_app, (IH Hnd' Hall').
  destruct (String.eqb_spec k k0) as [->|Hne].
  - apply getitem_absent in Hnotin. rewrite Hnotin. lia.
  - unfold collected at 1. simpl.
    rewrite records_of_other_sweep; [reflexivity|].
    rewrite (run_keeps_sweep_id _ contract). congruence.
Qed.

Lemma coherent_run e self evs :
  coherent self evs -> coherent (fst (run e self)) (evs ++ snd (run e self)).
Proof.
  intros [Hkeys Hentries Hposts].
  destruct (file_server_alive e && db_alive e) eqn:Halive.
  - apply andb_true_iff in Halive as [Hfs Hdb].
    destruct (run_alive Sweep_run Sweep_get_trials e self Hfs Hdb)
      as (Hst & _ & Hp).
    rewrite Hst. constructor; simpl.
    + now rewrite keys_tick.
    + apply Forall_map. eapply Forall_impl; [|exact Hentries].
      intros [k o] [Hid Hs]. simpl in *.
      destruct (tick_settled e _ _ Hid Hs) as (H1 & H2 & _).
      split; assumption.
    + intros k tid. rewrite count_posts_app, Hposts.
      unfold count_posts at 1. rewrite Hp, (loop_posts e k tid _ Hkeys Hentries).
      unfold expected_posts. simpl. rewrite getitem_tick.
      destruct (Py.getitem k (sweeps self)) as [o|] eqn:Hget; simpl;
        [|reflexivity].
      apply getitem_In in Hget.
      rewrite Forall_forall in Hentries.
      destruct (Hentries _ Hget) as [Hid Hs]. simpl in *.
      destruct (tick_settled e _ _ Hid Hs) as (_ & _ & Hc).
      now rewrite Hc.
  - rewrite (run_not_alive _ _ _ _ Halive). simpl.
    constructor; try assumption.
    intros k tid. rewrite count_posts_app, Hposts.
    unfold count_posts at 1. simpl. lia.
Qed.

Lemma coherent_create config self evs self' :
  coherent self evs ->
  step (OpCreate config) self = Py.Ok (self', []) ->
  coherent self' evs.
Proof.
  intros [Hkeys Hentries Hposts].
  destruct (step_create_cases Sweep_run Sweep_get_trials config self)
    as (self1 & Hstep & Hcases).
  rewrite Hstep. intros [= <-]. clear Hstep.
  destruct Hcases as [(o0 & Hget & Hf & ->)|[(o0 & Hget & ->)
      |[(study & Hget & Hl & ->)|(Hget & Hl & Hs & _)]]].
  - constructor; simpl.
    + now rewrite keys_mutate.
    + apply Forall_mutate; [assumption|].
      intros k' v [Hid Hs]. split; assumption.
    + intros k tid. rewrite Hposts. unfold expected_posts. simpl.
      destruct (String.eqb_spec k (SweepConfig.sweep_id config)) as [->|Hne].
      * now rewrite (getitem_mutate_same _ _ _ _ Hget), Hget.
      * now rewrite getitem_mutate_other.
  - now constructor.
  - constructor; simpl.
    + unfold Py.keys. rewrite map_app. simpl.
      apply NoDup_app; [assumption|repeat constructor; simpl; tauto|].
      intros a Hin [<-|[]]. now apply getitem_absent in Hget.
    + apply Forall_app. split; [assumption|].
      repeat constructor.
      intros r [].
    + intros k tid. rewrite Hposts. unfold expected_posts. simpl.
      rewrite getitem_app.
      destruct (Py.getitem k (sweeps self)) as [o|] eqn:Hk; [reflexivity|].
      simpl. now destruct (String.eqb k (SweepConfig.sweep_id config)).
  - constructor; rewrite ?Hs; try assumption.
    intros k tid. rewrite Hposts. unfold expected_posts. now rewrite Hs.
Qed.

Lemma coherent_exec ops : forall self evs0,
  coherent self evs0 ->
  exists self' evs,
    exec ops self = Py.Ok (self', evs) /\ coherent self' (evs0 ++ evs).
Proof.
  induction ops as [|op ops IH]; intros self evs0 Hcoh; simpl.
  - do 2 eexists. split; [reflexivity|]. now rewrite app_nil_r.
  - assert (Hstep : exists self1 evs1,
               step op self = Py.Ok (self1, evs1)
               /\ coherent self1 (evs0 ++ evs1)).
    { destruct op as [config|e].
      - destruct (step_create_cases Sweep_run Sweep_get_trials config self)
          as (self1 & Hc & _).
        do 2 eexists. split; [exact Hc|].
        rewrite app_nil_r. eapply coherent_create; eassumption.
      - exists (fst (run e self)), (snd (run e self)).
        split; [simpl; now destruct (run e self)|now apply coherent_run]. }
    destruct Hstep as (self1 & evs1 & -> & Hcoh1). simpl.
    destruct (IH _ _ Hcoh1) as (self2 & evs2 & -> & Hcoh2). simpl.
    do 2 eexists. split; [reflexivity|]. now rewrite app_assoc.
Qed.

Lemma coherent_init : coherent Sweeper_init [].
Proof. constructor; simpl; try constructor. Qed.

Lemma coherent_exactly_once self evs k o r :
  coherent self evs ->
  Py.getitem k (sweeps self) = Some o -> In r (Sweep.trials (obj o)) ->
  count_posts k (TrialRun.trial_id r) evs =
  if terminal (TrialRun.stage r) then 1%nat else O.
Proof.
  intros [Hkeys Hentries Hposts] Hget Hin.
  rewrite Hposts. unfold expected_posts. rewrite Hget.
  apply getitem_In in Hget.
  rewrite Forall_forall in Hentries.
  destruct (Hentries _ Hget) as [_ [Hnd Hft]]. simpl in *.
  rewrite (forwarded_count_unique _ _ Hnd), <- (Hft _ Hin).
  destruct (TrialRun.forwarded r) eqn:Hfw.
  - replace (existsb _ _) with true; [reflexivity|].
    symmetry. apply existsb_exists. exists r. split; [assumption|].
    now rewrite Z.eqb_refl, Hfw.
  - destruct (existsb _ _) eqn:E; [|reflexivity].
    apply existsb_exists in E as (r2 & Hin2 & Hp).
    apply andb_true_iff in Hp as [Hid Hfw2]. apply Z.eqb_eq in Hid.
    rewrite (same_id_same_trial _ _ _ Hnd Hin2 Hin Hid) in Hfw2. congruence.
Qed.

(** C3.  Whatever the scheduler inside [Sweep.run] does within its
    contract: along every history of create requests and ticks from a
    fresh Sweeper, at every point the record of a trial has been posted
    once if the trial is terminal and never if it is not.  A trial stays
    terminal once it is, so a record posted on one tick is not posted
    again on a later one. *)
Theorem terminal_trials_forwarded_exactly_once ops :
  exists self evs,
    exec ops Sweeper_init = Py.Ok (self, evs)
    /\ forall k o r,
         Py.getitem k (sweeps self) = Some o ->
         In r (Sweep.trials (obj o)) ->
         count_posts k (TrialRun.trial_id r) evs =
         if terminal (TrialRun.stage r) then 1%nat else O.
Proof.
  destruct (coherent_exec ops _ _ coherent_init) as (self & evs & Hex & Hcoh).
  exists self, evs. split; [assumption|].
  intros k o r. now apply coherent_exactly_once.
Qed.
End Forwarding.

(** ** The scheduler meets the contract *)

Lemma trial_id_advance e sid r :
  TrialRun.trial_id (advance e sid r) = TrialRun.trial_id r.
Proof.
  unfold advance.
  destruct (TrialRun.stage r); try reflexivity.
  destruct (poll_reports _).
  - now destruct (terminal_status _).
  - now destruct (should_prune _ _ _ _).
Qed.

Lemma forwarded_advance e sid r :
  TrialRun.forwarded (advance e sid r) = TrialRun.forwarded r.
Proof.
  unfold advance.
  destruct (TrialRun.stage r); try reflexivity.
  destruct (poll_reports _).
  - now destruct (terminal_status _).
  - now destruct (should_prune _ _ _ _).
Qed.

Lemma advance_terminal e sid r :
  terminal (TrialRun.stage r) = true -> advance e sid r = r.
Proof. unfold advance. now destruct (TrialRun.stage r). Qed.

Lemma next_trial_id_above trials r :
  In r trials -> TrialRun.trial_id r < next_trial_id trials.
Proof.
  induction trials as [|r0 l IH]; simpl; [tauto|].
  intros [->|Hin]; [lia|]. specialize (IH Hin). lia.
Qed.

Lemma next_trial_id_fresh trials :
  ~ In (next_trial_id trials) (map TrialRun.trial_id trials).
Proof.
  intros Hin. apply in_map_iff in Hin as (r & Heq & Hin).
  apply next_trial_id_above in Hin. lia.
Qed.

Lemma fill_slots_cases fuel e s : forall trials r,
  In r (fill_slots fuel e s trials) ->
  In r trials \/ TrialRun.forwarded r = false.
Proof.
  induction fuel as [|fuel IH]; intros trials r; simpl; [tauto|].
  destruct (_ && _); [|tauto].
  intros Hin. destruct (IH _ _ Hin) as [H|H]; [|tauto].
  apply in_app_or in H as [H|[<-|[]]]; [tauto|]. now right.
Qed.

Lemma fill_slots_keeps fuel e s : forall trials r,
  In r trials -> In r (fill_slots fuel e s trials).
Proof.
  induction fuel as [|fuel IH]; intros trials r Hin; simpl; [assumption|].
  destruct (_ && _); [|assumption].
  apply IH, in_or_app. now left.
Qed.

Lemma fill_slots_unique_ids fuel e s : forall trials,
  NoDup (map TrialRun.trial_id trials) ->
  NoDup (map TrialRun.trial_id (fill_slots fuel e s trials)).
Proof.
  induction fuel as [|fuel IH]; intros trials Hnd; simpl; [assumption|].
  destruct (_ && _); [|assumption].
  apply IH. rewrite map_app. simpl.
  apply NoDup_app; [assumption|repeat constructor; simpl; tauto|].
  intros a Hin [<-|[]]. now apply next_trial_id_fresh in Hin.
Qed.

Lemma scheduler_meets_contract : Sweep_run_contract Sweep_run_scheduler.
Proof.
  constructor; intros e s; unfold Sweep_run_scheduler;
    destruct (Sweep.has_failed s); auto; simpl.
  - intros r Hin Hterm. apply fill_slots_keeps.
    rewrite <- (advance_terminal e (Sweep.sweep_id s) r Hterm).
    now apply in_map.
  - intros Hnd. apply fill_slots_unique_ids.
    rewrite map_map.
    now rewrite (map_ext _ TrialRun.trial_id (trial_id_advance e _)).
  - intros r Hin Hfw. eauto.
  - intros r' Hin Hfw.
    destruct (fill_slots_cases _ _ _ _ _ Hin) as [H|H]; [|congruence].
    apply in_map_iff in H as (r & <- & Hin0).
    exists r. rewrite trial_id_advance, forwarded_advance in *. auto.
Qed.

Lemma terminal_trials_forwarded_exactly_once_witness :
  exists self evs,
    exec Sweep_run_scheduler Sweep_get_trials history Sweeper_init
      = Py.Ok (self, evs)
    /\ map Trial.trial_id (posts evs) = [0; 1]
    /\ count_posts "alice-exp1" 0 evs = 1%nat
    /\ count_posts "alice-exp1" 1 evs = 1%nat.
Proof.
  destruct (terminal_trials_forwarded_exactly_once Sweep_run_scheduler
              scheduler_meets_contract history)
    as (self & evs & Hex & Hcount).
  exists self, evs. split; [exact Hex|].
  vm_compute in Hex. injection Hex as <- <-.
  split; [reflexivity|].
  split.
  - eapply (Hcount "alice-exp1" _
              {| TrialRun.trial_id := 0;
                 TrialRun.params := [("model.lr", PyFloat (1 # 100))];
                 TrialRun.stage := SUCCEEDED;
                 TrialRun.reports := [];
                 TrialRun.best_model_score := Some (9 # 10);
                 TrialRun.monitor := EmptyString;
                 TrialRun.url := EmptyString;
                 TrialRun.forwarded := true |}); [reflexivity|].
    simpl. auto.
  - eapply (Hcount "alice-exp1" _
              {| TrialRun.trial_id := 1;
                 TrialRun.params := [("model.lr", PyFloat (1 # 100))];
                 TrialRun.stage := SUCCEEDED;
                 TrialRun.reports := [];
                 TrialRun.best_model_score := Some (9 # 10);
                 TrialRun.monitor := EmptyString;
                 TrialRun.url := EmptyString;
                 TrialRun.forwarded := true |}); [reflexivity|].
    simpl. auto.
Defined.

(** ** The Algorithm interface *)

(** The class has an abstract method besides the four. *)
Lemma Algorithm_not_exactly_four_operations :
  ~ (forall n,
       In n Algorithm.names <->
       In n ["register_distributions"; "trial_start"; "should_prune";
             "trial_end"]).
Proof.
  intros H.
  assert (Hin : In "get_params" Algorithm.names) by (simpl; tauto).
  apply H in Hin. simpl in Hin.
  repeat (destruct Hin as [Hin|Hin]; [discriminate Hin|]).
  exact Hin.
Qed.

(** C5 (as amended).  The abstract methods of [Algorithm] are exactly five:
    register_distributions, trial_start, trial_end, should_prune and
    get_params.  [trial_start] takes the trial id and declares no result;
    the mapping from parameter name to value is what [get_params] declares
    to return for a trial id. *)
Theorem Algorithm_has_five_operations :
  Algorithm.names =
    ["register_distributions"; "trial_start"; "trial_end"; "should_prune";
     "get_params"]
  /\ Algorithm.lookup "trial_start" =
       Some {| Algorithm.name := "trial_start";
               Algorithm.params := [("trial_id", Some Algorithm.a_int)];
               Algorithm.returns := None |}
  /\ Algorithm.lookup "get_params" =
       Some {| Algorithm.name := "get_params";
               Algorithm.params := [("trial_id", Some Algorithm.a_int)];
               Algorithm.returns :=
                 Some (Algorithm.a_Dict Algorithm.a_str Algorithm.a_Any) |}.
Proof. repeat split. Qed.

(** ** render_fn *)

Lemma split_length sep s : length (Py.split sep s) = S (Py.count sep s).
Proof.
  induction s as [|c s IH]; simpl; [reflexivity|].
  destruct (Ascii.eqb c sep); simpl.
  - now rewrite IH.
  - destruct (Py.split sep s); simpl in *; [discriminate|assumption].
Qed.

Lemma dict_at_contains {V} k (d : Py.dict V) :
  Py.contains k d = true -> exists v, dict_at k d = Py.Ok v.
Proof.
  intros H. apply contains_getitem in H as [v Hv].
  exists v. unfold dict_at. now rewrite Hv.
Qed.

Lemma dict_at_or_set {V} k v0 (d : Py.dict V) :
  exists v,
    Py.getitem k (if negb (Py.contains k d) then Py.setitem k v0 d else d)
    = Some v
    /\ (Py.contains k d = false -> v = v0).
Proof.
  destruct (Py.contains k d) eqn:E; simpl.
  - apply contains_getitem in E as [v Hv]. exists v. split; [assumption|discriminate].
  - exists v0. split; [apply getitem_setitem_same|reflexivity].
Qed.

(** The body of the grouping loop raises nothing but the ValueError of the
    unpacking, and raises it exactly when the split does not give two
    parts. *)
Lemma group_trial_cases user_sweeps trial :
  match Py.split "-" (Trial.sweep_id trial) with
  | [_; _] => exists us, group_trial user_sweeps trial = Py.Ok us
  | _ => group_trial user_sweeps trial = Py.Raise Py.ValueError
  end.
Proof.
  unfold group_trial.
  destruct (Py.split "-" (Trial.sweep_id trial)) as [|username [|sweep_id [|x l]]];
    try reflexivity.
  cbv zeta. unfold dict_at at 1.
  destruct (Py.getitem username _) as [inner|] eqn:E.
  2: { destruct (dict_at_or_set username (empty_dict _) user_sweeps)
         as (i & Hi & _).
       pose proof (eq_trans (eq_sym Hi) E) as X. discriminate X. }
  cbn [Py.bind].
  destruct (Py.contains sweep_id inner) eqn:Ec; cbn [negb].
  - unfold dict_at at 1. rewrite E. cbn [Py.bind].
    apply contains_getitem in Ec as [l Hl].
    unfold dict_at. rewrite Hl. cbn [Py.bind]. eauto.
  - unfold dict_at at 1.
    rewrite (getitem_mutate_same _ _ _ _ E). cbn [Py.bind].
    unfold dict_at. rewrite getitem_setitem_same. cbn [Py.bind]. eauto.
Qed.

Lemma group_trial_malformed user_sweeps trial :
  Py.count "-" (Trial.sweep_id trial) <> 1%nat ->
  group_trial user_sweeps trial = Py.Raise Py.ValueError.
Proof.
  intros Hcount.
  pose proof (group_trial_cases user_sweeps trial) as H.
  pose proof (split_length "-" (Trial.sweep_id trial)) as Hlen.
  destruct (Py.split "-" (Trial.sweep_id trial)) as [|a [|b [|c l]]];
    try assumption.
  simpl in Hlen. exfalso. apply Hcount. congruence.
Qed.

Lemma group_trial_well_formed user_sweeps trial :
  Py.count "-" (Trial.sweep_id trial) = 1%nat ->
  exists us, group_trial user_sweeps trial = Py.Ok us.
Proof.
  intros Hcount.
  pose proof (group_trial_cases user_sweeps trial) as H.
  pose proof (split_length "-" (Trial.sweep_id trial)) as Hlen.
  rewrite Hcount in Hlen.
  destruct (Py.split "-" (Trial.sweep_id trial)) as [|a [|b [|c l]]];
    try discriminate Hlen.
  assumption.
Qed.

Lemma group_trial_total user_sweeps trial :
  (exists us, group_trial user_sweeps trial = Py.Ok us)
  \/ group_trial user_sweeps trial = Py.Raise Py.ValueError.
Proof.
  pose proof (group_trial_cases user_sweeps trial) as H.
  destruct (Py.split "-" (Trial.sweep_id trial)) as [|a [|b [|c l]]]; auto.
Qed.

Lemma group_loop_malformed trials : forall user_sweeps trial,
  In trial trials ->
  Py.count "-" (Trial.sweep_id trial) <> 1%nat ->
  group_loop trials user_sweeps = Py.Raise Py.ValueError.
Proof.
  induction trials as [|t0 rest IH]; intros us trial Hin Hbad; simpl;
    [destruct Hin|].
  destruct (group_trial_total us t0) as [[us' Hok]|Hraise].
  - rewrite Hok. simpl.
    destruct Hin as [->|Hin].
    + rewrite (group_trial_malformed us trial Hbad) in Hok. discriminate.
    + now apply (IH us' trial).
  - now rewrite Hraise.
Qed.

Lemma group_loop_well_formed trials : forall user_sweeps,
  (forall trial, In trial trials ->
     Py.count "-" (Trial.sweep_id trial) = 1%nat) ->
  exists us, group_loop trials user_sweeps = Py.Ok us.
Proof.
  induction trials as [|t0 rest IH]; intros us Hall; simpl; [eauto|].
  destruct (group_trial_well_formed us t0) as [us' Hok];
    [apply Hall; now left|].
  rewrite Hok. simpl. apply IH. intros t Hin. apply Hall. now right.
Qed.

(** When every stored sweep_id has exactly one hyphen, the dashboard is
    rendered. *)
Lemma render_fn_well_formed checked trials :
  (forall trial, In trial trials ->
     Py.count "-" (Trial.sweep_id trial) = 1%nat) ->
  exists calls, render_fn checked trials = Py.Ok calls.
Proof.
  intros Hall. destruct trials as [|first others]; simpl; [eauto|].
  destruct (group_trial_well_formed [] first) as [us' Hok];
    [apply Hall; now left|].
  rewrite Hok. simpl.
  destruct (group_loop_well_formed others us') as [us Hus].
  { intros t Hin. apply Hall. now right. }
  rewrite Hus. simpl. eauto.
Qed.

(** C10.  If one of the stored trials has a sweep_id that does not contain
    exactly one hyphen, [render_fn] raises the ValueError of the unpacking
    at line 101 and shows nothing, whatever the other rows are. *)
Theorem render_fn_fails_on_malformed_sweep_id checked trials trial :
  In trial trials ->
  Py.count "-" (Trial.sweep_id trial) <> 1%nat ->
  render_fn checked trials = Py.Raise Py.ValueError.
Proof.
  intros Hin Hbad. unfold render_fn.
  destruct trials as [|first others]; [destruct Hin|].
  now rewrite (group_loop_malformed (first :: others) [] trial Hin Hbad).
Qed.

Lemma render_fn_fails_on_malformed_sweep_id_witness :
  render_fn (fun _ => true)
    [row "alice-exp1" 0 true; row "bob-my-exp" 0 true; row "carol" 0 false]
  = Py.Raise Py.ValueError.
Proof.
  apply (render_fn_fails_on_malformed_sweep_id (fun _ => true) _
           (row "bob-my-exp" 0 true)).
  - simpl. tauto.
  - simpl. discriminate.
Defined.

(* ================================================================= *)
(** * Further properties *)

(** ** create_sweep: the other branch, and how requests compose *)



(** X2.  Once a sweep_id is a key, a create request is read for its
    sweep_id only: two requests with the same sweep_id have the same
    effect and the same answer, whatever their script, trial counts,
    distributions or other fields. *)
Theorem create_sweep_ignores_request_for_existing_sweep c1 c2 self o :
  SweepConfig.sweep_id c1 = SweepConfig.sweep_id c2 ->
  Py.getitem (SweepConfig.sweep_id c1) (sweeps self) = Some o ->
  create_sweep c1 self = create_sweep c2 self.
Proof.
  intros Heq Hget. pose proof Hget as Hget2. rewrite Heq in Hget2.
  destruct (Sweep.has_failed (obj o)) eqn:Hf.
  - rewrite (create_sweep_failed _ _ _ Hget Hf),
      (create_sweep_failed _ _ _ Hget2 Hf). now rewrite Heq.
  - rewrite (create_sweep_live _ _ _ Hget Hf),
      (create_sweep_live _ _ _ Hget2 Hf). now rewrite Heq.
Qed.

Lemma create_sweep_ignores_request_for_existing_sweep_witness :
  create_sweep (cfg "alice-exp1" 5 1) two_sweeps =
  create_sweep (cfg "alice-exp1" 100 8) two_sweeps.
Proof.
  apply (create_sweep_ignores_request_for_existing_sweep
           (cfg "alice-exp1" 5 1) (cfg "alice-exp1" 100 8) two_sweeps
           {| addr := 0%nat; obj := failed_sweep |});
    reflexivity.
Defined.

(** X3.  A restart is spent by one request: after a create request has
    restarted a failed sweep, the same request again is rejected and
    changes nothing. *)
Theorem create_sweep_restart_then_rejected config self o :
  Py.getitem (SweepConfig.sweep_id config) (sweeps self) = Some o ->
  Sweep.has_failed (obj o) = true ->
  exists self',
    create_sweep config self =
      Py.Ok (msg_updated (SweepConfig.sweep_id config), self')
    /\ create_sweep config self' =
      Py.Ok (msg_running (SweepConfig.sweep_id config), self').
Proof.
  intros Hget Hf. eexists.
  split; [apply (create_sweep_failed _ _ _ Hget Hf)|].
  apply (create_sweep_live _ _ (on_obj restarted o)); [|reflexivity].
  simpl. now apply getitem_mutate_same.
Qed.

Lemma create_sweep_restart_then_rejected_witness :
  exists self',
    create_sweep (cfg "alice-exp1" 5 1) two_sweeps =
      Py.Ok ("Updated code for Sweep alice-exp1.", self')
    /\ create_sweep (cfg "alice-exp1" 5 1) self' =
      Py.Ok ("The current Sweep alice-exp1 is running. It couldn't be updated.",
             self').
Proof.
  apply (create_sweep_restart_then_rejected (cfg "alice-exp1" 5 1) two_sweeps
           {| addr := 0%nat; obj := failed_sweep |});
    reflexivity.
Defined.

Lemma string_length_append (a b : string) :
  String.length (a ++ b) = (String.length a + String.length b)%nat.
Proof. induction a as [|c a IH]; simpl; [reflexivity|]. now rewrite IH. Qed.

Lemma string_append_cancel_r (t a b : string) :
  (a ++ t = b ++ t)%string -> a = b.
Proof.
  revert b. induction a as [|c a IH]; intros [|c' b] H; simpl in H.
  - reflexivity.
  - apply (f_equal String.length) in H. simpl in H.
    rewrite string_length_append in H. lia.
  - apply (f_equal String.length) in H. simpl in H.
    rewrite string_length_append in H. lia.
  - injection H as -> H. f_equal. now apply IH.
Qed.

Lemma string_append_cancel_l (p a b : string) :
  (p ++ a = p ++ b)%string -> a = b.
Proof.
  induction p as [|c p IH]; simpl; [tauto|].
  intros H. injection H as H. now apply IH.
Qed.

Lemma message_injective o1 o2 i j :
  message o1 i = message o2 j -> o1 = o2 /\ i = j.
Proof.
  intros H. pose proof (message_determines_outcome _ _ _ _ H) as <-.
  split; [reflexivity|].
  destruct o1; unfold message, msg_launched, msg_updated, msg_running in H.
  - now apply string_append_cancel_l in H.
  - apply string_append_cancel_l in H.
    now apply string_append_cancel_r in H.
  - apply string_append_cancel_l in H.
    now apply string_append_cancel_r in H.
Qed.

(** X4.  The status string names the sweep: if two calls of
    [create_sweep], on whatever states, answer with the same string, they
    took the same branch and were made for the same sweep_id. *)
Theorem create_sweep_answer_names_the_sweep c1 self1 c2 self2 msg r1 r2 :
  create_sweep c1 self1 = Py.Ok (msg, r1) ->
  create_sweep c2 self2 = Py.Ok (msg, r2) ->
  outcome c1 self1 = outcome c2 self2
  /\ SweepConfig.sweep_id c1 = SweepConfig.sweep_id c2.
Proof.
  intros H1 H2.
  apply create_sweep_ok_message in H1, H2.
  apply message_injective. congruence.
Qed.

Lemma create_sweep_answer_names_the_sweep_witness :
  outcome (cfg "carol-exp3" 4 2) two_sweeps
    = outcome (cfg "carol-exp3" 1 1) Sweeper_init
  /\ "carol-exp3" = "carol-exp3".
Proof.
  destruct (create_sweep (cfg "carol-exp3" 4 2) two_sweeps)
    as [[m1 r1]|] eqn:E1; [|discriminate E1].
  destruct (create_sweep (cfg "carol-exp3" 1 1) Sweeper_init)
    as [[m2 r2]|] eqn:E2; [|discriminate E2].
  assert (Hm : m2 = m1).
  { vm_compute in E1, E2. injection E1 as <- _. injection E2 as <- _.
    reflexivity. }
  subst m2.
  apply (create_sweep_answer_names_the_sweep _ _ _ _ _ _ _ E1 E2).
Defined.

(** ** run: the order of effects, and what a tick leaves alone *)

Lemma first_seen_app_seen seen xs :
  forall x, In x (first_seen seen xs) -> ~ In x seen.
Proof.
  revert seen. induction xs as [|y rest IH]; intros seen x; simpl; [tauto|].
  destruct (Py.list_contains y seen) eqn:E.
  - apply IH.
  - intros [<-|Hin].
    + intros Hin. unfold Py.list_contains in E.
      assert (existsb (String.eqb y) seen = true); [|congruence].
      apply existsb_exists. exists y. split; [assumption|apply String.eqb_refl].
    + intros Hs. apply (IH _ _ Hin). apply in_or_app. now left.
Qed.

(** [first_seen] has no repeats. *)
Lemma first_seen_NoDup xs : forall seen, NoDup (first_seen seen xs).
Proof.
  induction xs as [|y rest IH]; intros seen; simpl; [constructor|].
  destruct (Py.list_contains y seen); [apply IH|].
  constructor; [|apply IH].
  intros Hin. apply first_seen_app_seen in Hin. apply Hin.
  apply in_or_app. right. now left.
Qed.

(** [first_seen] keeps exactly the elements that were not seen. *)
Lemma first_seen_In xs : forall seen x,
  In x (first_seen seen xs) <-> In x xs /\ ~ In x seen.
Proof.
  induction xs as [|y rest IH]; intros seen x; simpl; [tauto|].
  destruct (Py.list_contains y seen) eqn:E.
  - rewrite IH. split; [tauto|]. intros [[<-|Hin] Hs]; [|tauto].
    exfalso. unfold Py.list_contains in E.
    apply existsb_exists in E as (z & Hz & Heq).
    apply String.eqb_eq in Heq. subst z. contradiction.
  - simpl. rewrite IH. split.
    + intros [<-|[Hin Hs]].
      * split; [now left|]. intros Hin. unfold Py.list_contains in E.
        assert (existsb (String.eqb y) seen = true); [|congruence].
        apply existsb_exists. exists y. split; [assumption|apply String.eqb_refl].
      * split; [now right|]. intros Hx. apply Hs, in_or_app. now left.
    + intros [[<-|Hin] Hs]; [now left|].
      destruct (String.eqb_spec y x) as [->|Hne]; [now left|].
      right. split; [assumption|].
      intros Hx. apply in_app_or in Hx as [Hx|[Hx|[]]]; [tauto|congruence].
Qed.

Lemma flat_map_values {V B} (f : V -> list B) (d : Py.dict V) :
  flat_map f (Py.values d) = flat_map (fun kv => f (snd kv)) d.
Proof. induction d as [|[k v] d IH]; simpl; [reflexivity|]. now rewrite IH. Qed.

Section TickFacts.
Variable Sweep_run : Env -> Sweep.t -> Sweep.t.
Variable Sweep_get_trials : Sweep.t -> list Trial.t * Sweep.t.

Local Abbreviation run := (run Sweep_run Sweep_get_trials).
Local Abbreviation step := (step Sweep_run Sweep_get_trials).
Local Abbreviation exec := (exec Sweep_run Sweep_get_trials).
Local Abbreviation tick_obj := (tick_obj Sweep_run Sweep_get_trials).
Local Abbreviation collected := (collected Sweep_run Sweep_get_trials).

Lemma post_loop_map e trials :
  post_loop e trials = map (EvPost (db_url e ++ "/trial")%string) trials.
Proof. induction trials as [|t l IH]; simpl; [reflexivity|]. now rewrite IH. Qed.

(** X5.  The effects of a tick with both collaborators alive, in order:
    the three works are started; then [run] is called on each Sweep object
    in the order of the mapping; only then are the records the sweeps
    handed out posted, each to the database url followed by "/trial", in
    the order in which the sweeps handed them out. *)
Theorem run_effects_in_order e self :
  file_server_alive e = true -> db_alive e = true ->
  snd (run e self) =
    [EvFileServerRun; EvDbRun; EvDbVizRun]
    ++ map (fun sweep => EvSweepRun (addr sweep)) (Py.values (sweeps self))
    ++ map (EvPost (db_url e ++ "/trial")%string)
         (flat_map (collected e) (Py.values (sweeps self))).
Proof.
  intros Hfs Hdb. unfold run. rewrite Hfs, Hdb. cbn [andb].
  rewrite run_loop_eq, app_nil_l.
  rewrite flat_map_values. unfold Py.values. rewrite map_map.
  destruct (flat_map (fun kv => collected e (snd kv)) (sweeps self))
    as [|t ts] eqn:Hts; cbn [fst snd].
  - simpl map at 2. now rewrite app_nil_r.
  - now rewrite post_loop_map.
Qed.

(** X6.  Whatever the environment, a tick leaves the mapping's keys and
    their order, the object under each key, the drive and the allocation
    count as they were: it constructs no Sweep object, drops none and
    moves none. *)
Theorem run_changes_only_sweep_states e self :
  Py.keys (sweeps (fst (run e self))) = Py.keys (sweeps self)
  /\ map addr (Py.values (sweeps (fst (run e self)))) =
     map addr (Py.values (sweeps self))
  /\ drive (fst (run e self)) = drive self
  /\ allocated (fst (run e self)) = allocated self.
Proof.
  destruct (file_server_alive e && db_alive e) eqn:Halive.
  - apply andb_true_iff in Halive as [Hfs Hdb].
    destruct (run_alive Sweep_run Sweep_get_trials e self Hfs Hdb)
      as (-> & _ & _). simpl.
    rewrite keys_tick, addr_tick. auto.
  - rewrite (run_not_alive _ _ _ _ Halive). simpl. auto.
Qed.

Lemma exec_keys ops : forall self,
  exists self' evs,
    exec ops self = Py.Ok (self', evs)
    /\ Py.keys (sweeps self') =
       Py.keys (sweeps self)
       ++ first_seen (Py.keys (sweeps self)) (launchable_ids ops).
Proof.
  induction ops as [|op ops IH]; intros self.
  - simpl. do 2 eexists. split; [reflexivity|]. now rewrite app_nil_r.
  - cbn [exec]. destruct op as [config|e]; cbn [launchable_ids flat_map].
    + destruct (step_create_cases Sweep_run Sweep_get_trials config self)
        as (self1 & Hstep & Hcases).
      rewrite Hstep. cbn [Py.bind fst snd].
      destruct (IH self1) as (self2 & evs2 & -> & Hk2).
      cbn [Py.bind fst snd app]. do 2 eexists. split; [reflexivity|].
      rewrite Hk2. clear Hstep Hk2.
      destruct Hcases as [(o0 & Hget & Hf & ->)|[(o0 & Hget & ->)
          |[(study & Hget & Hl & ->)|(Hget & Hl & Hs & _)]]].
      * assert (Hc : Py.list_contains (SweepConfig.sweep_id config)
                       (Py.keys (sweeps self)) = true)
          by (apply contains_getitem; eauto).
        simpl sweeps. rewrite keys_mutate.
        destruct (launchable config); simpl; rewrite ?Hc; reflexivity.
      * assert (Hc : Py.list_contains (SweepConfig.sweep_id config)
                       (Py.keys (sweeps self)) = true)
          by (apply contains_getitem; eauto).
        destruct (launchable config); simpl; rewrite ?Hc; reflexivity.
      * apply not_contains_getitem in Hget as Hc.
        rewrite Hl. simpl. rewrite Hc.
        unfold Py.keys. rewrite map_app. simpl. now rewrite <- app_assoc.
      * rewrite Hl, Hs. reflexivity.
    + destruct (run_changes_only_sweep_states e self) as (Hk & _).
      cbn [step Py.bind fst snd].
      destruct (IH (fst (run e self))) as (self2 & evs2 & -> & Hk2).
      cbn [Py.bind fst snd]. do 2 eexists. split; [reflexivity|].
      simpl. now rewrite Hk2, Hk.
Qed.

Lemma distinct_below_length (l : list nat) n :
  NoDup l -> Forall (fun a => (a < n)%nat) l -> (length l <= n)%nat.
Proof.
  intros Hnd Hlt.
  rewrite <- (length_seq n 0). apply NoDup_incl_length; [assumption|].
  intros a Hin. rewrite Forall_forall in Hlt. apply in_seq.
  specialize (Hlt _ Hin). lia.
Qed.

(** X7.  Along any history from a fresh Sweeper no two keys hold the same
    Sweep object, and every object held is one the Sweeper constructed.
    The keys never outnumber the Sweep objects constructed; they can be
    fewer, since a launch that raises at the assignment has constructed a
    Sweep that is held nowhere. *)
Theorem one_sweep_object_per_key ops :
  exists self evs,
    exec ops Sweeper_init = Py.Ok (self, evs)
    /\ NoDup (map addr (Py.values (sweeps self)))
    /\ Forall (fun o => (addr o < allocated self)%nat) (Py.values (sweeps self))
    /\ (length (sweeps self) <= allocated self)%nat.
Proof.
  destruct (exec_keys ops Sweeper_init) as (self & evs & Hex & _).
  exists self, evs. split; [assumption|].
  assert (Hwa : well_addressed self).
  { apply (exec_well_addressed Sweep_run Sweep_get_trials ops Sweeper_init
             self evs); [|assumption].
    split; constructor. }
  destruct Hwa as [Hnd Hlt]. split; [assumption|]. split; [assumption|].
  rewrite <- (length_map snd), <- (length_map addr).
  apply distinct_below_length; [assumption|].
  now apply addr_bound.
Qed.

End TickFacts.

(** A history with a request that raises at the assignment and one that
    raises at the study: one key, held by the second of the two Sweep
    objects constructed. *)
Example dropped_sweep_is_not_a_key :
  exists self evs,
    exec Sweep_run_scheduler Sweep_get_trials
      [OpCreate (cfg "alice-exp.1" 2 1);
       OpCreate (cfg_direction "dave-exp4" "sideways");
       OpCreate (cfg_direction "dave-exp4" "minimize");
       OpTick (env true true)] Sweeper_init = Py.Ok (self, evs)
    /\ Py.keys (sweeps self) = ["dave-exp4"]
    /\ map addr (Py.values (sweeps self)) = [1%nat]
    /\ allocated self = 2%nat.
Proof.
  do 2 eexists. split; [vm_compute; reflexivity|]. repeat split.
Qed.

Lemma run_effects_in_order_witness :
  map (fun ev => match ev with
                 | EvSweepRun a => ("run", EmptyString, Z.of_nat a)
                 | EvPost url t => (url, Trial.sweep_id t, Trial.trial_id t)
                 | _ => ("start", EmptyString, 0)
                 end)
    (snd (run Sweep_run_scheduler Sweep_get_trials (env true true) busy_sweeps))
  = [("start", EmptyString, 0); ("start", EmptyString, 0);
     ("start", EmptyString, 0);
     ("run", EmptyString, 0); ("run", EmptyString, 1);
     ("http://db/trial", "alice-exp1", 0); ("http://db/trial", "bob-exp2", 0)].
Proof.
  rewrite (run_effects_in_order Sweep_run_scheduler Sweep_get_trials
             (env true true) busy_sweeps eq_refl eq_refl).
  reflexivity.
Defined.

(** ** render_fn: how the rows are grouped and what is drawn *)

Lemma split_single sep s b : Py.split sep s = [b] -> s = b.
Proof.
  revert b. induction s as [|c s IH]; intros b; simpl.
  - now intros [= <-].
  - pose proof (split_length sep s) as Hlen.
    destruct (Ascii.eqb c sep).
    + intros [= _ H]. rewrite H in Hlen. discriminate Hlen.
    + destruct (Py.split sep s) as [|w ws]; [discriminate Hlen|].
      intros [= <- ->]. f_equal. now apply IH.
Qed.

(** Joining the two parts of a split with the separator gives the string
    back. *)
Lemma split_pair sep s a b :
  Py.split sep s = [a; b] -> s = (a ++ String sep b)%string.
Proof.
  revert a. induction s as [|c s IH]; intros a; simpl; [discriminate|].
  destruct (Ascii.eqb_spec c sep) as [->|Hne].
  - intros [= <- H]. simpl. f_equal. now apply split_single in H.
  - destruct (Py.split sep s) as [|w ws]; [discriminate|].
    intros [= <- ->]. simpl. f_equal. now apply IH.
Qed.

Lemma mutate_decompose {V} k (d : Py.dict V) v :
  Py.getitem k d = Some v ->
  exists l1 l2,
    d = l1 ++ (k, v) :: l2
    /\ forall f, Py.mutate k f d = l1 ++ (k, f v) :: l2.
Proof.
  induction d as [|[k' v'] d IH]; simpl; [discriminate|].
  destruct (String.eqb_spec k k') as [->|Hne].
  - intros [= ->]. exists [], d. split; [reflexivity|].
    intros f. reflexivity.
  - intros Hget. destruct (IH Hget) as (l1 & l2 & -> & Hm).
    exists ((k', v') :: l1), l2. split; [reflexivity|].
    intros f. simpl. now rewrite Hm.
Qed.

(** Mutating one entry changes the flattening of a dictionary by what it
    changes in that entry. *)
Lemma flat_map_mutate {V B} (F : string * V -> list B) k f (d : Py.dict V) v
    (extra : list B) :
  Py.getitem k d = Some v ->
  Permutation (F (k, f v)) (extra ++ F (k, v)) ->
  Permutation (flat_map F (Py.mutate k f d)) (extra ++ flat_map F d).
Proof.
  intros Hget Hperm.
  destruct (mutate_decompose k d v Hget) as (l1 & l2 & -> & Hm).
  rewrite Hm, !flat_map_app. simpl.
  rewrite (Permutation_app_swap_app extra).
  apply Permutation_app_head.
  rewrite app_assoc. now apply Permutation_app_tail.
Qed.

Lemma filed_app us1 us2 : filed (us1 ++ us2) = filed us1 ++ filed us2.
Proof. apply flat_map_app. Qed.

(** The shape the grouping loop keeps once the first row is filed: the
    first user is [u0] and the first sweep of that user is [n0]. *)
Lemma mutate_head_key {V} k f k0 (v0 : V) rest :
  exists v0' rest',
    Py.mutate k f ((k0, v0) :: rest) = (k0, v0') :: rest'
    /\ (v0' = v0 \/ (k = k0 /\ v0' = f v0)).
Proof.
  simpl. destruct (String.eqb_spec k k0) as [->|Hne]; eauto 6.
Qed.

Lemma setitem_head_other {V} k v k0 (v0 : V) rest :
  Py.contains k ((k0, v0) :: rest) = false ->
  Py.setitem k v ((k0, v0) :: rest) = (k0, v0) :: Py.setitem k v rest.
Proof.
  unfold Py.contains, Py.list_contains. simpl.
  intros H. apply orb_false_iff in H as [-> _]. reflexivity.
Qed.

(** Lines 102-106 for a row whose user [u] is already a key (of
    [user_sweeps] itself, or of [user_sweeps] with [u] just added). *)
Lemma file_row (us1 : UserSweeps) inner u n t :
  Py.getitem u us1 = Some inner ->
  exists us',
    (inner <- dict_at u us1 ;;
     inner2 <- dict_at u
                 (if negb (Py.contains n inner)
                  then Py.mutate u (Py.setitem n []) us1
                  else us1) ;;
     _ <- dict_at n inner2 ;;
     Py.Ok (Py.mutate u (Py.mutate n (fun l => l ++ [t]))
              (if negb (Py.contains n inner)
               then Py.mutate u (Py.setitem n []) us1
               else us1))) = Py.Ok us'
    /\ Permutation (filed us') ((u, n, t) :: filed us1)
    /\ Py.keys us' = Py.keys us1
    /\ (forall u0 n0, starts_with u0 n0 us1 -> starts_with u0 n0 us')
    /\ (us1 = [(u, [])] -> us' = [(u, [(n, [t])])]).
Proof.
  intros E. unfold dict_at at 1. rewrite E. cbn [Py.bind].
  set (G := fun se : string * list Trial.t =>
              map (fun trial => (u, fst se, trial)) (snd se)).
  assert (HG : forall d, filed_of_user (u, d) = flat_map G d) by reflexivity.
  destruct (Py.contains n inner) eqn:Ec; cbn [negb].
  - unfold dict_at at 1. rewrite E. cbn [Py.bind].
    apply contains_getitem in Ec as [ts Hts].
    unfold dict_at. rewrite Hts. cbn [Py.bind].
    eexists. split; [reflexivity|]. split; [|split; [|split]].
    + apply (flat_map_mutate filed_of_user u _ us1 inner [(u, n, t)] E).
      rewrite !HG.
      apply (flat_map_mutate G n _ inner ts [(u, n, t)] Hts).
      unfold G. simpl. rewrite map_app. simpl.
      apply Permutation_sym, Permutation_cons_append.
    + apply keys_mutate.
    + intros u0 n0 (ts0 & m & rest & ->). simpl.
      destruct (String.eqb u u0); simpl;
        [destruct (String.eqb n n0)|]; unfold starts_with; eauto.
    + intros ->. simpl in E. rewrite String.eqb_refl in E.
      injection E as <-. discriminate Hts.
  - assert (Hn : Py.getitem n inner = None) by (now apply not_contains_getitem).
    unfold dict_at at 1. rewrite (getitem_mutate_same _ _ _ _ E).
    cbn [Py.bind]. unfold dict_at. rewrite getitem_setitem_same.
    cbn [Py.bind]. rewrite mutate_mutate.
    eexists. split; [reflexivity|]. split; [|split; [|split]].
    + apply (flat_map_mutate filed_of_user u _ us1 inner [(u, n, t)] E).
      rewrite !HG, (setitem_fresh _ _ _ Hn).
      replace (flat_map G inner) with (flat_map G (inner ++ [(n, [])]))
        by (rewrite flat_map_app; simpl; apply app_nil_r).
      apply (flat_map_mutate G n _ (inner ++ [(n, [])]) [] [(u, n, t)]).
      * rewrite getitem_app, Hn. simpl. now rewrite String.eqb_refl.
      * reflexivity.
    + apply keys_mutate.
    + intros u0 n0 (ts0 & m & rest & ->). simpl in *.
      destruct (String.eqb u u0); simpl; [|unfold starts_with; eauto].
      injection E as <-.
      unfold Py.contains, Py.list_contains in Ec. simpl in Ec.
      apply orb_false_iff in Ec as [Hne _]. rewrite Hne. simpl.
      rewrite Hne. unfold starts_with. eauto.
    + intros ->. simpl in *. rewrite String.eqb_refl in *.
      injection E as <-. simpl. now rewrite String.eqb_refl.
Qed.

(** The body of the grouping loop on a row whose sweep id has two parts. *)
Lemma group_trial_files us t u n :
  Py.split "-" (Trial.sweep_id t) = [u; n] ->
  exists us',
    group_trial us t = Py.Ok us'
    /\ Permutation (filed us') ((u, n, t) :: filed us)
    /\ Py.keys us' =
       (if Py.contains u us then Py.keys us else Py.keys us ++ [u])
    /\ (forall u0 n0, starts_with u0 n0 us -> starts_with u0 n0 us')
    /\ (us = [] -> us' = [(u, [(n, [t])])]).
Proof.
  intros Hsplit. unfold group_trial. rewrite Hsplit. cbv zeta.
  destruct (Py.contains u us) eqn:Ec; cbn [negb].
  - apply contains_getitem in Ec as [inner E].
    destruct (file_row us inner u n t E) as (us' & Heq & Hp & Hk & Hs & _).
    exists us'. split; [exact Heq|]. repeat split; try assumption.
    intros ->. discriminate E.
  - assert (Hn : Py.getitem u us = None) by (now apply not_contains_getitem).
    assert (E : Py.getitem u (Py.setitem u (empty_dict (list Trial.t)) us)
                = Some []) by apply getitem_setitem_same.
    destruct (file_row _ [] u n t E) as (us' & Heq & Hp & Hk & Hs & H0).
    exists us'. split; [exact Heq|].
    rewrite (setitem_fresh _ _ _ Hn) in Hp, Hk, Hs, H0.
    split; [|split; [|split]].
    + rewrite filed_app in Hp. simpl in Hp. now rewrite app_nil_r in Hp.
    + rewrite Hk. unfold Py.keys. now rewrite map_app.
    + intros u0 n0 (ts0 & m & rest & ->). apply Hs.
      unfold starts_with. simpl. eauto.
    + intros ->. now apply H0.
Qed.

Lemma group_trial_ok_split us t us' :
  group_trial us t = Py.Ok us' ->
  exists u n, Py.split "-" (Trial.sweep_id t) = [u; n].
Proof.
  intros Hok. pose proof (group_trial_cases us t) as H.
  destruct (Py.split "-" (Trial.sweep_id t)) as [|u [|n [|x l]]];
    try (rewrite H in Hok; discriminate Hok).
  eauto.
Qed.

Lemma split_parts t u n :
  Py.split "-" (Trial.sweep_id t) = [u; n] ->
  username_of t = u /\ sweep_name_of t = n
  /\ Trial.sweep_id t = (u ++ "-" ++ n)%string
  /\ Py.count "-" (Trial.sweep_id t) = 1%nat.
Proof.
  intros Hs. unfold username_of, sweep_name_of. rewrite Hs.
  repeat split.
  - now apply split_pair in Hs.
  - pose proof (split_length "-" (Trial.sweep_id t)) as Hl.
    rewrite Hs in Hl. simpl in Hl. congruence.
Qed.

(** The grouping loop as a whole. *)
Lemma group_loop_files trials : forall us us',
  group_loop trials us = Py.Ok us' ->
  Permutation (filed us') (filed us ++ map tagged trials)
  /\ Py.keys us' =
     Py.keys us ++ first_seen (Py.keys us) (map username_of trials)
  /\ (forall u0 n0, starts_with u0 n0 us -> starts_with u0 n0 us')
  /\ forall t, In t trials ->
       exists u n, Py.split "-" (Trial.sweep_id t) = [u; n].
Proof.
  induction trials as [|t rest IH]; intros us us'; simpl.
  - intros [= <-]. rewrite !app_nil_r. repeat split; auto. intros t [].
  - destruct (group_trial us t) as [us1|] eqn:Hstep; [|discriminate].
    simpl. intros Hloop.
    destruct (group_trial_ok_split _ _ _ Hstep) as (u & n & Hs).
    destruct (group_trial_files us t u n Hs) as (us1' & Heq & Hp & Hk & Hsw & _).
    rewrite Hstep in Heq. injection Heq as <-.
    destruct (split_parts t u n Hs) as (Hu & Hn & _).
    destruct (IH _ _ Hloop) as (Hp' & Hk' & Hsw' & Hall).
    split; [|split; [|split]].
    + rewrite Hp', Hp. unfold tagged at 2. rewrite Hu, Hn.
      simpl. apply Permutation_middle.
    + rewrite Hk', Hk, Hu. unfold Py.contains.
      destruct (Py.list_contains u (Py.keys us)); [reflexivity|].
      now rewrite <- app_assoc.
    + intros u0 n0 H. auto.
    + intros t' [<-|Hin]; eauto.
Qed.

Lemma render_fn_ok_inv checked first others calls :
  render_fn checked (first :: others) = Py.Ok calls ->
  exists us,
    group_loop (first :: others) [] = Py.Ok us
    /\ calls = st_tabs (Py.keys us)
               :: render_users checked us (last others first).
Proof.
  unfold render_fn.
  destruct (group_loop (first :: others) []) as [us|] eqn:Hg; [|discriminate].
  simpl. intros [= <-]. eauto.
Qed.

Lemma checkboxes_app c1 c2 :
  checkboxes (c1 ++ c2) = checkboxes c1 ++ checkboxes c2.
Proof. apply flat_map_app. Qed.

Lemma checkboxes_render_trials checked n ts :
  checkboxes (render_trials checked n ts) = map (checkbox_of n) ts.
Proof.
  unfold render_trials.
  induction ts as [|t ts IH]; [reflexivity|].
  cbn [flat_map map]. rewrite checkboxes_app, IH.
  unfold checkbox_of at 2. cbv zeta.
  now destruct (checked _).
Qed.

Lemma checkboxes_render_sweeps checked items : forall trial,
  checkboxes (fst (render_sweeps checked items trial)) =
  flat_map (fun se => map (checkbox_of (fst se)) (snd se)) items.
Proof.
  induction items as [|[n ts] rest IH]; intros trial; [reflexivity|].
  cbn [render_sweeps]. cbv zeta.
  specialize (IH (last ts trial)).
  destruct (render_sweeps checked rest (last ts trial)) as [calls trial2].
  cbn [fst snd] in *.
  rewrite !checkboxes_app, checkboxes_render_trials, IH. reflexivity.
Qed.

Lemma checkboxes_of_user u (d : Py.dict (list Trial.t)) :
  flat_map (fun se => map (checkbox_of (fst se)) (snd se)) d =
  map (fun x => checkbox_of (snd (fst x)) (snd x)) (filed_of_user (u, d)).
Proof.
  unfold filed_of_user. cbn [fst snd].
  induction d as [|[n ts] d IH]; [reflexivity|].
  cbn [flat_map fst snd]. rewrite map_app, map_map, IH. reflexivity.
Qed.

Lemma checkboxes_render_users checked us : forall trial,
  checkboxes (render_users checked us trial) =
  map (fun x => checkbox_of (snd (fst x)) (snd x)) (filed us).
Proof.
  induction us as [|[u d] rest IH]; intros trial; [reflexivity|].
  cbn [render_users]. unfold Py.items.
  pose proof (checkboxes_render_sweeps checked d trial) as Hd.
  destruct (render_sweeps checked d trial) as [calls trial1].
  cbn [fst snd] in *.
  change (checkboxes (st_enter u :: calls ++ render_users checked rest trial1))
    with (checkboxes (calls ++ render_users checked rest trial1)).
  rewrite checkboxes_app, Hd, IH.
  unfold filed. cbn [flat_map]. rewrite map_app. f_equal.
  apply checkboxes_of_user.
Qed.

(** X9.  The tab bar [render_fn] opens has one tab per user, the users
    being the first parts of the stored sweep ids, each once, in the order
    in which they first appear among the rows. *)
Theorem render_fn_one_tab_per_user checked first others calls :
  render_fn checked (first :: others) = Py.Ok calls ->
  exists rest,
    calls = st_tabs (first_seen [] (map username_of (first :: others))) :: rest.
Proof.
  intros Hok.
  destruct (render_fn_ok_inv _ _ _ _ Hok) as (us & Hg & ->).
  destruct (group_loop_files _ _ _ Hg) as (_ & Hk & _).
  simpl in Hk. rewrite Hk. eauto.
Qed.

Lemma render_fn_one_tab_per_user_witness :
  exists rest,
    render_fn (fun _ => false)
      [row "alice-exp1" 0 true; row "bob-exp2" 0 false; row "alice-exp3" 1 true]
    = Py.Ok (st_tabs ["alice"; "bob"] :: rest).
Proof.
  destruct (render_fn (fun _ => false)
              [row "alice-exp1" 0 true; row "bob-exp2" 0 false;
               row "alice-exp3" 1 true]) as [calls|] eqn:Hr;
    [|discriminate Hr].
  destruct (render_fn_one_tab_per_user _ _ _ _ Hr) as [rest ->].
  exists rest. reflexivity.
Defined.

(** X10.  When the grouping loop of [render_fn] runs through, every row is
    filed exactly once, under the user and the sweep name that its
    sweep_id is made of (user, hyphen, name): what is filed is a
    rearrangement of the rows, none lost and none twice. *)
Theorem group_loop_files_every_row_once trials us :
  group_loop trials [] = Py.Ok us ->
  Permutation (filed us) (map tagged trials)
  /\ forall t, In t trials ->
       Trial.sweep_id t = (username_of t ++ "-" ++ sweep_name_of t)%string.
Proof.
  intros Hg. destruct (group_loop_files _ _ _ Hg) as (Hp & _ & _ & Hall).
  split; [exact Hp|].
  intros t Hin. destruct (Hall t Hin) as (u & n & Hs).
  destruct (split_parts t u n Hs) as (-> & -> & H & _). exact H.
Qed.

Lemma group_loop_files_every_row_once_witness :
  exists us,
    group_loop [row "alice-exp1" 0 true; row "bob-exp2" 0 false;
                row "alice-exp1" 1 true] [] = Py.Ok us
    /\ Permutation (filed us)
         [("alice", "exp1", row "alice-exp1" 0 true);
          ("bob", "exp2", row "bob-exp2" 0 false);
          ("alice", "exp1", row "alice-exp1" 1 true)].
Proof.
  destruct (group_loop [row "alice-exp1" 0 true; row "bob-exp2" 0 false;
                        row "alice-exp1" 1 true] []) as [us|] eqn:Hg;
    [|discriminate Hg].
  exists us. split; [reflexivity|].
  apply (proj1 (group_loop_files_every_row_once _ _ Hg)).
Defined.

(** X11.  When [render_fn] draws the dashboard it draws exactly one
    checkbox per stored row, labelled "Trial" and the trial id, with the
    key made of the row's database id and the name part of its sweep id. *)
Theorem render_fn_one_checkbox_per_row checked trials calls :
  render_fn checked trials = Py.Ok calls ->
  Permutation (checkboxes calls)
    (map (fun t => checkbox_of (sweep_name_of t) t) trials).
Proof.
  destruct trials as [|first others].
  - simpl. intros [= <-]. constructor.
  - intros Hok.
    destruct (render_fn_ok_inv _ _ _ _ Hok) as (us & Hg & ->).
    destruct (group_loop_files _ _ _ Hg) as (Hp & _).
    change (checkboxes (st_tabs (Py.keys us)
                        :: render_users checked us (last others first)))
      with (checkboxes (render_users checked us (last others first))).
    rewrite checkboxes_render_users.
    eapply Permutation_trans; [apply Permutation_map, Hp|].
    change (filed [] ++ map tagged (first :: others))
      with (map tagged (first :: others)).
    rewrite map_map. reflexivity.
Qed.

Lemma render_fn_one_checkbox_per_row_witness :
  exists calls,
    render_fn (fun _ => true)
      [row "alice-exp1" 0 true; row "bob-exp2" 0 false; row "alice-exp1" 1 true]
    = Py.Ok calls
    /\ Permutation (checkboxes calls)
         [("Trial 0", "checkbox_1_exp1"); ("Trial 0", "checkbox_1_exp2");
          ("Trial 1", "checkbox_2_exp1")].
Proof.
  destruct (render_fn (fun _ => true)
              [row "alice-exp1" 0 true; row "bob-exp2" 0 false;
               row "alice-exp1" 1 true]) as [calls|] eqn:Hr;
    [|discriminate Hr].
  exists calls. split; [reflexivity|].
  apply (render_fn_one_checkbox_per_row _ _ _ Hr).
Defined.

(** X12.  The status written next to the first sweep of the dashboard is
    not computed from that sweep's rows: it is the has_succeeded flag of
    the last row the query returned, whichever sweep that row belongs
    to. *)
Theorem render_fn_first_status_is_of_last_row checked first others calls :
  render_fn checked (first :: others) = Py.Ok calls ->
  exists users rest,
    calls =
      st_tabs users
      :: st_enter (username_of first)
      :: st_expander
           (sweep_name_of first ++ " "
            ++ (if Trial.has_succeeded (last others first)
                then "/ Succeeded" else "/ Failed"))%string
      :: rest.
Proof.
  intros Hok.
  destruct (render_fn_ok_inv _ _ _ _ Hok) as (us & Hg & ->).
  cbn [group_loop] in Hg.
  destruct (group_trial [] first) as [us1|] eqn:Hstep; [|discriminate Hg].
  cbn [Py.bind] in Hg.
  destruct (group_trial_ok_split _ _ _ Hstep) as (u & n & Hs).
  destruct (group_trial_files [] first u n Hs) as (us1' & Heq & _ & _ & _ & H0).
  rewrite Hstep in Heq. injection Heq as <-.
  specialize (H0 eq_refl). subst us1.
  destruct (group_loop_files _ _ _ Hg) as (_ & _ & Hsw & _).
  destruct (Hsw u n) as (ts & m & rest & ->).
  { unfold starts_with. eauto. }
  destruct (split_parts first u n Hs) as (-> & -> & _).
  cbn [render_users Py.items render_sweeps]. cbv zeta.
  destruct (render_sweeps checked m (last ts (last others first)))
    as [calls2 trial2].
  cbn [app]. eauto.
Qed.

(** A sweep whose only trial failed is shown as succeeded, because the
    last row belongs to a sweep that succeeded. *)
Lemma render_fn_first_status_is_of_last_row_witness :
  exists users rest,
    render_fn (fun _ => false)
      [row "alice-exp1" 0 false; row "bob-exp2" 0 true]
    = Py.Ok (st_tabs users :: st_enter "alice"
             :: st_expander "exp1 / Succeeded" :: rest).
Proof.
  destruct (render_fn (fun _ => false)
              [row "alice-exp1" 0 false; row "bob-exp2" 0 true])
    as [calls|] eqn:Hr; [|discriminate Hr].
  destruct (render_fn_first_status_is_of_last_row _ _ _ _ Hr)
    as (users & rest & ->).
  exists users, rest. reflexivity.
Defined.

(** X13.  [render_fn] returns normally exactly when every stored sweep id
    has one hyphen: in particular the dictionary lookups of lines 102-106
    never fail, however the rows are spread over users and sweeps, and an
    empty table is fine. *)
Theorem render_fn_succeeds_iff_well_formed checked trials :
  (exists calls, render_fn checked trials = Py.Ok calls)
  <-> forall t, In t trials -> Py.count "-" (Trial.sweep_id t) = 1%nat.
Proof.
  split; [|apply render_fn_well_formed].
  intros [calls Hok] t Hin.
  destruct (Nat.eq_dec (Py.count "-" (Trial.sweep_id t)) 1) as [H|Hbad];
    [assumption|exfalso].
  unfold render_fn in Hok. destruct trials as [|first others]; [destruct Hin|].
  rewrite (group_loop_malformed (first :: others) [] t Hin Hbad) in Hok.
  discriminate Hok.
Qed.

(** ** HPOSweeper.configure_layout *)

Section LayoutFacts.
Variable Sweep_show : Sweep.t -> bool.
Variable Sweep_configure_layout : SweepObj -> list Tab.

Lemma layout_loop_eq values : forall tabs,
  layout_loop Sweep_show Sweep_configure_layout values tabs =
  tabs ++ flat_map Sweep_configure_layout
            (filter (fun sweep => Sweep_show (obj sweep)) values).
Proof.
  induction values as [|sweep rest IH]; intros tabs; simpl.
  - now rewrite app_nil_r.
  - rewrite IH. destruct (Sweep_show (obj sweep)); simpl; [|reflexivity].
    now rewrite app_assoc.
Qed.

(** X14.  The layout of the app is the "Team Control" tab, the "Database
    Viz" tab, and then the tabs of the Sweeps whose [show] attribute is
    set, in the order of the mapping: the two fixed tabs always come
    first, and a Sweep that is not shown contributes no tab. *)
Theorem HPOSweeper_layout_tabs sweeper :
  HPOSweeper_configure_layout Sweep_show Sweep_configure_layout sweeper =
  [{| tab_name := "Team Control"; tab_content := ContentSweeper |};
   {| tab_name := "Database Viz"; tab_content := ContentDbViz |}]
  ++ flat_map Sweep_configure_layout
       (filter (fun sweep => Sweep_show (obj sweep))
          (Py.values (sweeps sweeper))).
Proof. unfold HPOSweeper_configure_layout. now rewrite layout_loop_eq. Qed.
End LayoutFacts.

(** ** render_fn: details are shown for ticked trials only *)

Lemma Permutation_filter_same {A} (p : A -> bool) l l' :
  Permutation l l' -> Permutation (filter p l) (filter p l').
Proof.
  induction 1 as [|x l l' H IH|x y l|l l' l'' H1 IH1 H2 IH2]; simpl.
  - constructor.
  - destruct (p x); [now constructor|assumption].
  - destruct (p x), (p y); try reflexivity. apply perm_swap.
  - now transitivity (filter p l').
Qed.

Lemma jsons_app c1 c2 : jsons (c1 ++ c2) = jsons c1 ++ jsons c2.
Proof. apply flat_map_app. Qed.

Section Ticked.
Variable checked : string -> bool.

(** Whether the checkbox of a filed trial is ticked. *)
Local Abbreviation ticked :=
  (fun x : string * string * Trial.t =>
     checked (snd (checkbox_of (snd (fst x)) (snd x)))).

Lemma jsons_render_trials n ts :
  jsons (render_trials checked n ts) =
  map json_of (filter (fun t => checked (snd (checkbox_of n t))) ts).
Proof.
  unfold render_trials.
  induction ts as [|t ts IH]; [reflexivity|].
  cbn [flat_map filter]. rewrite jsons_app, IH. cbv zeta.
  unfold checkbox_of at 2. cbn [snd].
  now destruct (checked _).
Qed.

Lemma jsons_render_sweeps u items : forall trial,
  jsons (fst (render_sweeps checked items trial)) =
  map (fun x => json_of (snd x)) (filter ticked (filed_of_user (u, items))).
Proof.
  unfold filed_of_user. cbn [fst snd].
  induction items as [|[n ts] rest IH]; intros trial; [reflexivity|].
  cbn [render_sweeps]. cbv zeta.
  specialize (IH (last ts trial)).
  destruct (render_sweeps checked rest (last ts trial)) as [calls trial2].
  cbn [fst snd flat_map] in *.
  rewrite !jsons_app, jsons_render_trials, IH.
  rewrite filter_app, map_app, filter_map_swap, map_map. reflexivity.
Qed.

Lemma jsons_render_users us : forall trial,
  jsons (render_users checked us trial) =
  map (fun x => json_of (snd x)) (filter ticked (filed us)).
Proof.
  induction us as [|[u d] rest IH]; intros trial; [reflexivity|].
  cbn [render_users]. unfold Py.items.
  pose proof (jsons_render_sweeps u d trial) as Hd.
  destruct (render_sweeps checked d trial) as [calls trial1].
  cbn [fst snd] in *.
  change (jsons (st_enter u :: calls ++ render_users checked rest trial1))
    with (jsons (calls ++ render_users checked rest trial1)).
  rewrite jsons_app, Hd, IH.
  unfold filed. cbn [flat_map]. now rewrite filter_app, map_app.
Qed.

(** X15.  The details of a trial (params, monitor, best_model_score) are
    shown for the rows whose checkbox is ticked, once each, and for no
    other row. *)
Theorem render_fn_details_for_ticked_rows_only trials calls :
  render_fn checked trials = Py.Ok calls ->
  Permutation (jsons calls)
    (map json_of
       (filter (fun t => checked (snd (checkbox_of (sweep_name_of t) t)))
          trials)).
Proof.
  destruct trials as [|first others].
  - simpl. intros [= <-]. constructor.
  - intros Hok.
    destruct (render_fn_ok_inv _ _ _ _ Hok) as (us & Hg & ->).
    destruct (group_loop_files _ _ _ Hg) as (Hp & _).
    change (jsons (st_tabs (Py.keys us)
                   :: render_users checked us (last others first)))
      with (jsons (render_users checked us (last others first))).
    rewrite jsons_render_users.
    eapply Permutation_trans;
      [apply Permutation_map, Permutation_filter_same, Hp|].
    change (filed [] ++ map tagged (first :: others))
      with (map tagged (first :: others)).
    rewrite filter_map_swap, map_map. reflexivity.
Qed.
End Ticked.

Lemma render_fn_details_for_ticked_rows_only_witness :
  exists calls,
    render_fn (String.eqb "checkbox_2_exp1")
      [row "alice-exp1" 0 true; row "bob-exp2" 0 false; row "alice-exp1" 1 true]
    = Py.Ok calls
    /\ Permutation (jsons calls) [json_of (row "alice-exp1" 1 true)].
Proof.
  destruct (render_fn (String.eqb "checkbox_2_exp1")
              [row "alice-exp1" 0 true; row "bob-exp2" 0 false;
               row "alice-exp1" 1 true]) as [calls|] eqn:Hr;
    [|discriminate Hr].
  exists calls. split; [reflexivity|].
  apply (render_fn_details_for_ticked_rows_only _ _ _ Hr).
Defined.
